(** * rlpyt_algos: the categorical DQN losses of SPR, embedded in Rocq

    The module [src/rlpyt_algos.py] defines two algorithm classes,
    [PizeroCategoricalDQN] and [PizeroModelCategoricalDQN].  Tensors are
    modelled as lists of real numbers (one list level per tensor dimension),
    tensor arithmetic is exact, Python exceptions are the [Raise] results of an
    error monad, and the neural networks, the replay buffer and the optimisers
    are collaborators reached through the functions of a record. *)

From Stdlib Require Import String.
From Stdlib Require Import Reals Lra Lia List Bool Arith.
Import ListNotations.
Open Scope R_scope.

Set Implicit Arguments.

(** ** Exceptions *)

Inductive exn : Type :=
| NameError (name : string)
| AttributeError (name : string)
| IndexError
| ZeroDivisionError
| AssertionError
| RuntimeError.

Inductive result (A : Type) : Type :=
| Ok (a : A)
| Raise (e : exn).
Arguments Ok {A} a.
Arguments Raise {A} e.

Definition bind {A B : Type} (m : result A) (k : A -> result B) : result B :=
  match m with
  | Ok a => k a
  | Raise e => Raise e
  end.

Notation "x <- m ;; k" := (bind m (fun x => k))
  (at level 61, m at next level, right associativity).
Notation "' p <- m ;; k" := (bind m (fun p => k))
  (at level 61, p pattern, m at next level, right associativity).

(** Python sequence indexing [xs[i]] with a natural index. *)
Definition getitem {A : Type} (xs : list A) (i : nat) : result A :=
  match nth_error xs i with
  | Some x => Ok x
  | None => Raise IndexError
  end.

Fixpoint mapM {A B : Type} (f : A -> result B) (l : list A)
  : result (list B) :=
  match l with
  | [] => Ok []
  | a :: l' =>
      b <- f a ;;
      bs <- mapM f l' ;;
      Ok (b :: bs)
  end.

(** ** Tensors and the torch primitives used by the module *)

Definition EPS : R := 1 / 1000000.

Definition float (b : bool) : R := if b then 1 else 0.

(** [torch.clamp(x, lo, hi)]: [min(max(x, lo), hi)]. *)
Definition torch_clamp (x lo hi : R) : R := Rmin (Rmax x lo) hi.

Fixpoint torch_sum (v : list R) : R :=
  match v with
  | [] => 0
  | x :: v' => x + torch_sum v'
  end.

(** [torch.mean(v)] of a non-empty tensor. *)
Definition torch_mean (v : list R) : R := torch_sum v / INR (length v).

(** Element-wise product of two tensors of the same shape. *)
Fixpoint mul (u v : list R) : list R :=
  match u, v with
  | x :: u', y :: v' => x * y :: mul u' v'
  | _, _ => []
  end.

(** [torch.linspace(a, b, n)]. *)
Definition torch_linspace (a b : R) (n : nat) : list R :=
  map (fun i => a + INR i * ((b - a) / (INR n - 1))) (seq 0 n).

(** [torch.ger(u, v)], the outer product. *)
Definition torch_ger (u v : list R) : list (list R) :=
  map (fun x => map (fun y => x * y) v) u.

(** [torch.tensordot(ps, z, dims=1)] on a [B,A,P] tensor and a [P] vector. *)
Definition tensordot (ps : list (list (list R))) (z : list R) : list (list R) :=
  map (map (fun p => torch_sum (mul p z))) ps.

(** [torch.argmax] of a vector: the first position holding the maximum; an
    empty vector has none, torch raises an IndexError. *)
Fixpoint argmax_from (best : R) (besti i : nat) (v : list R) : nat :=
  match v with
  | [] => besti
  | x :: v' =>
      if Rlt_dec best x then argmax_from x i (S i) v'
      else argmax_from best besti (S i) v'
  end.

Definition argmax (v : list R) : result nat :=
  match v with
  | [] => Raise IndexError
  | x :: v' => Ok (argmax_from x 0%nat 1%nat v')
  end.

(** [torch.cumsum(v, dim=0)]. *)
Fixpoint cumsum_from (acc : R) (v : list R) : list R :=
  match v with
  | [] => []
  | x :: v' => (acc + x) :: cumsum_from (acc + x) v'
  end.

Definition torch_cumsum (v : list R) : list R := cumsum_from 0 v.

(** [F.log_softmax(x, -1)] on a [B,K] tensor. *)
Definition log_softmax_row (x : list R) : list R :=
  map (fun a => a - ln (torch_sum (map exp x))) x.

Definition log_softmax (x : list (list R)) : list (list R) :=
  map log_softmax_row x.

(** ** The rlpyt helpers imported by the module *)

(** [rlpyt.utils.tensor.select_at_indexes(indexes, tensor)] for a [B] index
    vector: asserts that the leading shapes agree and picks
    [tensor[b][indexes[b]]]. *)
Fixpoint select_rows {A : Type} (indexes : list nat) (tensor : list (list A))
  : result (list A) :=
  match indexes, tensor with
  | i :: indexes', row :: tensor' =>
      x <- getitem row i ;;
      xs <- select_rows indexes' tensor' ;;
      Ok (x :: xs)
  | _, _ => Ok []
  end.

Definition select_at_indexes {A : Type} (indexes : list nat)
  (tensor : list (list A)) : result (list A) :=
  if Nat.eqb (length indexes) (length tensor) then select_rows indexes tensor
  else Raise AssertionError.

(** Modelled from the spec: [rlpyt.algos.utils.valid_from_done] is imported,
    its text is not part of the module.  Section 4.2 calls invalid the samples
    past a terminal flag within the sequence: the mask is [ones_like(done)]
    with [valid[1:] = 1 - clamp(cumsum(done[:-1]), max=1)], so the position of
    the first set flag is still valid and every later one is not. *)
Definition valid_mask (done : list bool) : list R :=
  match done with
  | [] => []
  | _ :: _ =>
      1 :: map (fun c => 1 - Rmin c 1) (torch_cumsum (map float (removelast done)))
  end.

(** Modelled from the spec: [rlpyt.utils.tensor.valid_mean(tensor, valid)],
    the mean over valid entries only:
    [(tensor * valid).sum() / valid.sum()]. *)
Definition valid_mean (tensor valid : list R) : R :=
  torch_sum (mul tensor valid) / torch_sum valid.

(** A tensor of termination flags as a caller passes it for [done]: [B] or
    [T,B]; indexing it once gives a 0-dim or a [B] tensor. *)
Inductive done_tensor : Type :=
| Done1 (v : list bool)
| Done2 (m : list (list bool)).

Inductive done_slice : Type :=
| Slice0 (b : bool)
| Slice1 (v : list bool).

Definition done_getitem (d : done_tensor) (i : nat) : result done_slice :=
  match d with
  | Done1 v => b <- getitem v i ;; Ok (Slice0 b)
  | Done2 m => v <- getitem m i ;; Ok (Slice1 v)
  end.

(** [valid_from_done(done)]: the slices [valid[1:]] and [done[:-1]] cannot be
    taken of a 0-dim tensor, torch raises an IndexError there. *)
Definition valid_from_done (d : done_slice) : result (list R) :=
  match d with
  | Slice0 _ => Raise IndexError
  | Slice1 v => Ok (valid_mask v)
  end.

(** Importance weights as [rl_loss] receives them: the batch's [is_weights]
    tensor or the Python float [1.]. *)
Inductive weights : Type :=
| Scalar (w : R)
| PerSample (w : list R).

(** [losses *= is_weights]. *)
Definition imul (losses : list R) (w : weights) : list R :=
  match w with
  | Scalar c => map (fun l => l * c) losses
  | PerSample v => mul losses v
  end.

(** ** The module namespace

    Names bound by the import statements and the definitions at the top of
    [rlpyt_algos.py] (lines 1 to 17 and the two class statements), and
    Python's built-in functions, constants and exceptions. *)

Open Scope string_scope.

Definition module_globals : list string :=
  [ "torch"; "namedarraytuple"; "namedtuple"; "CategoricalDQN";
    "select_at_indexes"; "valid_mean"; "valid_from_done";
    "AsyncPrioritizedSequenceReplayFrameBufferExtended";
    "AsyncUniformSequenceReplayFrameBufferExtended";
    "from_categorical"; "to_categorical"; "SamplesToBuffer"; "OptInfo";
    "EPS"; "PizeroCategoricalDQN"; "PizeroModelCategoricalDQN";
    "__name__"; "__doc__"; "__package__"; "__loader__"; "__spec__";
    "__file__"; "__cached__"; "__builtins__" ].

Definition builtins : list string :=
  [ "abs"; "aiter"; "all"; "anext"; "any"; "ascii"; "bin"; "bool";
    "breakpoint"; "bytearray"; "bytes"; "callable"; "chr"; "classmethod";
    "compile"; "complex"; "delattr"; "dict"; "dir"; "divmod"; "enumerate";
    "eval"; "exec"; "filter"; "float"; "format"; "frozenset"; "getattr";
    "globals"; "hasattr"; "hash"; "help"; "hex"; "id"; "input"; "int";
    "isinstance"; "issubclass"; "iter"; "len"; "list"; "locals"; "map";
    "max"; "memoryview"; "min"; "next"; "object"; "oct"; "open"; "ord";
    "pow"; "print"; "property"; "range"; "repr"; "reversed"; "round"; "set";
    "setattr"; "slice"; "sorted"; "staticmethod"; "str"; "sum"; "super";
    "tuple"; "type"; "vars"; "zip"; "__import__";
    "False"; "True"; "None"; "NotImplemented"; "Ellipsis"; "__debug__";
    "BaseException"; "BaseExceptionGroup"; "Exception"; "ExceptionGroup";
    "ArithmeticError"; "AssertionError"; "AttributeError"; "BlockingIOError";
    "BrokenPipeError"; "BufferError"; "BytesWarning"; "ChildProcessError";
    "ConnectionAbortedError"; "ConnectionError"; "ConnectionRefusedError";
    "ConnectionResetError"; "DeprecationWarning"; "EOFError";
    "EncodingWarning"; "EnvironmentError"; "FileExistsError";
    "FileNotFoundError"; "FloatingPointError"; "FutureWarning";
    "GeneratorExit"; "IOError"; "ImportError"; "ImportWarning";
    "IndentationError"; "IndexError"; "InterruptedError"; "IsADirectoryError";
    "KeyError"; "KeyboardInterrupt"; "LookupError"; "MemoryError";
    "ModuleNotFoundError"; "NameError"; "NotADirectoryError";
    "NotImplementedError"; "OSError"; "OverflowError";
    "PendingDeprecationWarning"; "PermissionError"; "ProcessLookupError";
    "RecursionError"; "ReferenceError"; "ResourceWarning"; "RuntimeError";
    "RuntimeWarning"; "StopAsyncIteration"; "StopIteration"; "SyntaxError";
    "SyntaxWarning"; "SystemError"; "SystemExit"; "TabError"; "TimeoutError";
    "TypeError"; "UnboundLocalError"; "UnicodeDecodeError";
    "UnicodeEncodeError"; "UnicodeError"; "UnicodeTranslateError";
    "UnicodeWarning"; "UserWarning"; "ValueError"; "Warning";
    "ZeroDivisionError"; "copyright"; "credits"; "exit"; "license"; "quit" ].

(** Looking up a free name of a method body: the module's globals, the
    built-ins, then [patched], the names bound in the module from outside
    after it was imported (none by the program as written). *)
Definition namespace (patched : list string) : list string :=
  module_globals ++ builtins ++ patched.

Definition lookup_global (patched : list string) (name : string) : result unit :=
  if existsb (String.eqb name) (namespace patched) then Ok tt
  else Raise (NameError name).

Close Scope string_scope.

(** ** Agents, samples and algorithm instances *)

Section Algos.

Variables Obs Latent : Type.

(** [src.model_trainer.to_categorical(reward, limit=...)], imported by the
    module: a [B] reward tensor becomes a [B,2*limit+1] tensor of categorical
    targets. *)
Variable to_categorical : list R -> nat -> list (list R).

(** The agent's networks.  A [B,A,P] tensor is a list (batch) of lists
    (actions) of lists (atoms). *)
Record Agent : Type := {
  n_atoms : nat;
  forward : Obs -> list nat -> list R -> list (list (list R));
  target : Obs -> list nat -> list R -> list (list (list R));
  stem_forward : Obs -> list nat -> list R -> Latent;
  head_forward : Latent -> list nat -> list R -> list (list (list R));
  step : Latent -> list nat -> Latent * list (list R);
  reward_predictor : Latent -> list (list R)
}.

(** A batch drawn from the replay buffer; every field but [is_weights] is
    indexed by the time offset first. *)
Record Samples : Type := {
  all_observation : list Obs;
  all_action : list (list nat);
  all_reward : list (list R);
  return_ : list (list R);
  done : list (list bool);
  done_n : list (list bool);
  is_weights : list R
}.

(** An algorithm instance.  The options are the attributes stored by the
    constructors; [extra_attrs] holds boolean attributes that were set on the
    instance by other means. *)
Record Algo : Type := {
  agent : Agent;
  V_min : R;
  V_max : R;
  discount : R;
  n_step_return : nat;
  jumps : nat;
  detach_model : bool;
  double_dqn : bool;
  prioritized_replay : bool;
  mid_batch_reset : bool;
  min_itr_learn : nat;
  updates_per_optimize : nat;
  batch_size : nat;
  target_update_interval : nat;
  target_update_tau : R;
  clip_grad_norm : R;
  extra_attrs : list (string * bool)
}.

(** [PizeroCategoricalDQN.__init__(jumps, detach_model, **kwargs)]: stores the
    two options of its own and hands the keyword arguments, here the fields of
    [kwargs], to the base class; no other attribute is set. *)
Definition init (jumps0 : nat) (detach_model0 : bool) (kwargs : Algo) : Algo :=
  {| agent := agent kwargs;
     V_min := V_min kwargs;
     V_max := V_max kwargs;
     discount := discount kwargs;
     n_step_return := n_step_return kwargs;
     jumps := jumps0;
     detach_model := detach_model0;
     double_dqn := double_dqn kwargs;
     prioritized_replay := prioritized_replay kwargs;
     mid_batch_reset := mid_batch_reset kwargs;
     min_itr_learn := min_itr_learn kwargs;
     updates_per_optimize := updates_per_optimize kwargs;
     batch_size := batch_size kwargs;
     target_update_interval := target_update_interval kwargs;
     target_update_tau := target_update_tau kwargs;
     clip_grad_norm := clip_grad_norm kwargs;
     extra_attrs := [] |}.

(** Reading a boolean attribute [self.name]. *)
Definition getattr (self : Algo) (name : string) : result bool :=
  if String.eqb name "detach_model" then Ok (detach_model self)
  else if String.eqb name "double_dqn" then Ok (double_dqn self)
  else if String.eqb name "prioritized_replay" then Ok (prioritized_replay self)
  else if String.eqb name "mid_batch_reset" then Ok (mid_batch_reset self)
  else
    match find (fun kv => String.eqb name (fst kv)) (extra_attrs self) with
    | Some kv => Ok (snd kv)
    | None => Raise (AttributeError name)
    end.

(** ** The categorical loss, lines 66 to 121 and 196 to 248

    The two methods [PizeroCategoricalDQN.loss] and
    [PizeroModelCategoricalDQN.rl_loss] have the same body line for line; the
    tensor expressions they share are the definitions below. *)

(** [delta_z = (V_max - V_min) / (n_atoms - 1)], a division of Python
    numbers. *)
Definition delta_z (self : Algo) : result R :=
  if Nat.eqb (n_atoms (agent self)) 1 then Raise ZeroDivisionError
  else Ok ((V_max self - V_min self) / (INR (n_atoms (agent self)) - 1)).

Definition support (self : Algo) : list R :=
  torch_linspace (V_min self) (V_max self) (n_atoms (agent self)).

(** Lines 70 to 73: the contracted, shifted and clamped support, [B,P']. *)
Definition shifted_support (self : Algo) (return_n : list R)
  (done_n : list bool) : list (list R) :=
  let z := support self in
  let next_z := map (fun x => x * discount self ^ n_step_return self) z in
  let next_z := torch_ger (map (fun d => 1 - float d) done_n) next_z in
  map (fun rz => map (fun x => torch_clamp (fst rz + x) (V_min self) (V_max self))
                     (snd rz))
      (combine return_n next_z).

(** Lines 75 to 78: [projection_coeffs], [B,P,P']. *)
Definition projection_coeffs (self : Algo) (dz : R) (return_n : list R)
  (done_n : list bool) : list (list (list R)) :=
  map (fun next_z_b =>
         map (fun zi =>
                map (fun x => torch_clamp (1 - Rabs (x - zi) / dz) 0 1) next_z_b)
             (support self))
      (shifted_support self return_n done_n).

(** Lines 92 to 96: the greedy next action of each batch element. *)
Definition greedy (self : Algo) (ps : list (list (list R)))
  : result (list nat) :=
  mapM argmax (tensordot ps (support self)).

(** Line 99: [(target_p_unproj.unsqueeze(1) * projection_coeffs).sum(-1)]. *)
Definition project (target_p_unproj : list (list R))
  (coeffs : list (list (list R))) : list (list R) :=
  map (fun uc => map (fun coeff_i => torch_sum (mul (fst uc) coeff_i)) (snd uc))
      (combine target_p_unproj coeffs).

(** Line 104: the NaN-guard on the predicted distribution. *)
Definition clamp_probs (p : list (list R)) : list (list R) :=
  map (map (fun x => torch_clamp x EPS 1)) p.

(** Line 105: the per-sample cross-entropy. *)
Definition cross_entropy (target_p p : list (list R)) : list R :=
  map (fun tp => - torch_sum (mul (fst tp) (map ln (snd tp))))
      (combine target_p p).

(** Lines 111 and 112: the KL statistic of the clamped distributions. *)
Definition kl_sum (target_p p : list (list R)) : list R :=
  map (fun tp =>
         torch_sum (mul (fst tp)
                        (map (fun tq => ln (fst tq) - ln (snd tq))
                             (combine (fst tp) (snd tp)))))
      (combine target_p p).

(** Lines 110 to 113. *)
Definition kl_div (target_p p : list (list R)) : list R :=
  map (fun k => torch_clamp k EPS (1 / EPS))
      (kl_sum (clamp_probs target_p) p).

(** ** PizeroCategoricalDQN.loss, lines 58 to 122 *)

(** Lines 66 to 99: the projected target distribution [target_p]. *)
Definition base_target_p (self : Algo) (samples : Samples)
  : result (list (list R)) :=
  dz <- delta_z self ;;
  done_n1 <- getitem (done_n samples) 1 ;;
  return_1 <- getitem (return_ samples) 1 ;;
  let coeffs := projection_coeffs self dz return_1 done_n1 in
  obs_n <- getitem (all_observation samples) (n_step_return self + 1) ;;
  act_n <- getitem (all_action samples) (n_step_return self) ;;
  rew_n <- getitem (all_reward samples) (n_step_return self) ;;
  let target_ps := target (agent self) obs_n act_n rew_n in
  dd <- getattr self "double_dqn" ;;
  next_a <-
    (if dd then greedy self (forward (agent self) obs_n act_n rew_n)
     else greedy self target_ps) ;;
  target_p_unproj <- select_at_indexes next_a target_ps ;;
  Ok (project target_p_unproj coeffs).

(** Lines 100 to 113: the per-sample losses and the KL statistic. *)
Definition base_per_sample (self : Algo) (samples : Samples)
  : result (list R * list R) :=
  target_p <- base_target_p self samples ;;
  obs_1 <- getitem (all_observation samples) 1 ;;
  act_0 <- getitem (all_action samples) 0 ;;
  rew_0 <- getitem (all_reward samples) 0 ;;
  let ps := forward (agent self) obs_1 act_0 rew_0 in
  act_1 <- getitem (all_action samples) 1 ;;
  p <- select_at_indexes act_1 ps ;;
  let p := clamp_probs p in
  let losses := cross_entropy target_p p in
  pr <- getattr self "prioritized_replay" ;;
  let losses := if pr then mul losses (is_weights samples) else losses in
  let KL_div := kl_div target_p p in
  Ok (losses, KL_div).

Definition base_loss (self : Algo) (samples : Samples) : result (R * list R) :=
  '(losses, KL_div) <- base_per_sample self samples ;;
  mbr <- getattr self "mid_batch_reset" ;;
  if negb mbr then
    done_1 <- getitem (done samples) 1 ;;
    valid <- valid_from_done (Slice1 done_1) ;;
    Ok (valid_mean losses valid, mul KL_div valid)
  else Ok (torch_mean losses, KL_div).

(** ** PizeroModelCategoricalDQN.rl_loss, lines 191 to 250 *)

(** Lines 196 to 229: the projected target distribution [target_p]. *)
Definition rl_target_p (self : Algo) (return_n : list R) (done_n : list bool)
  (next_state : Obs) (next_prev_action : list nat) (next_prev_reward : list R)
  : result (list (list R)) :=
  dz <- delta_z self ;;
  let coeffs := projection_coeffs self dz return_n done_n in
  let target_ps :=
    target (agent self) next_state next_prev_action next_prev_reward in
  dd <- getattr self "double_dqn" ;;
  next_a <-
    (if dd
     then greedy self
            (forward (agent self) next_state next_prev_action next_prev_reward)
     else greedy self target_ps) ;;
  target_p_unproj <- select_at_indexes next_a target_ps ;;
  Ok (project target_p_unproj coeffs).

(** Lines 230 to 241: the per-sample losses and the KL statistic. *)
Definition rl_per_sample (self : Algo) (latent : Latent) (action : list nat)
  (return_n : list R) (done_n : list bool)
  (prev_action : list nat) (prev_reward : list R)
  (next_state : Obs) (next_prev_action : list nat) (next_prev_reward : list R)
  (is_weights : weights) : result (list R * list R) :=
  target_p <- rl_target_p self return_n done_n
                next_state next_prev_action next_prev_reward ;;
  let ps := head_forward (agent self) latent prev_action prev_reward in
  p <- select_at_indexes action ps ;;
  let p := clamp_probs p in
  let losses := cross_entropy target_p p in
  pr <- getattr self "prioritized_replay" ;;
  let losses := if pr then imul losses is_weights else losses in
  let KL_div := kl_div target_p p in
  Ok (losses, KL_div).

Definition rl_loss (self : Algo) (latent : Latent) (action : list nat)
  (return_n : list R) (done_n : list bool)
  (prev_action : list nat) (prev_reward : list R)
  (next_state : Obs) (next_prev_action : list nat) (next_prev_reward : list R)
  (is_weights : weights) (done : done_tensor) : result (R * list R) :=
  '(losses, KL_div) <-
    rl_per_sample self latent action return_n done_n prev_action prev_reward
                  next_state next_prev_action next_prev_reward is_weights ;;
  mbr <- getattr self "mid_batch_reset" ;;
  if negb mbr then
    done_1 <- done_getitem done 1 ;;
    valid <- valid_from_done done_1 ;;
    Ok (valid_mean losses valid, mul KL_div valid)
  else Ok (torch_mean losses, KL_div).

(** ** PizeroModelCategoricalDQN.loss, lines 252 to 306 *)

(** [x.detach()] cuts the gradient graph and keeps the value. *)
Definition detach (x : Latent) : Latent := x.

(** [torch.sum(reward_target * pred_rew, -1)], a [B] tensor. *)
Definition sum_last (reward_target pred_rew : list (list R)) : list R :=
  map (fun tp => torch_sum (mul (fst tp) (snd tp)))
      (combine reward_target pred_rew).

(** [a - b + c] with [B] tensors [a], [b] and a 0-dim tensor [c]. *)
Definition sub_add (a b : list R) (c : R) : list R :=
  map (fun ab => fst ab - snd ab + c) (combine a b).

(** One pass through the body of the loop of lines 282 to 301. *)
Definition jump (patched : list string) (self : Algo) (samples : Samples)
  (st : Latent * list R) (j : nat) : result (Latent * list R) :=
  let '(current_latent, model_loss) := st in
  act_p <- getitem (all_action samples) (j - 1) ;;
  let '(current_latent, pred_rew) :=
    step (agent self) current_latent act_p in
  act_j <- getitem (all_action samples) j ;;
  ret_j <- getitem (return_ samples) j ;;
  done_nj <- getitem (done_n samples) j ;;
  rew_j <- getitem (all_reward samples) j ;;
  obs_t <- getitem (all_observation samples) (j + n_step_return self) ;;
  act_t <- getitem (all_action samples) (j + n_step_return self - 1) ;;
  rew_t <- getitem (all_reward samples) (j + n_step_return self) ;;
  pr <- getattr self "prioritize_replay" ;;
  let w := if pr then PerSample (is_weights samples) else Scalar 1 in
  done_j <- getitem (done samples) (j + 1) ;;
  '(jump_rl_loss, _) <-
    rl_loss self current_latent act_j ret_j done_nj act_j rew_j
            obs_t act_t rew_t w (Done1 done_j) ;;
  _ <- lookup_global patched "to_categorical" ;;
  rew_0 <- getitem (all_reward samples) 0 ;;
  let reward_target := to_categorical rew_0 1 in
  let pred_rew := reward_predictor (agent self) current_latent in
  _ <- lookup_global patched "F" ;;
  let pred_rew := log_softmax pred_rew in
  Ok (current_latent,
      sub_add model_loss (sum_last reward_target pred_rew) jump_rl_loss).

Fixpoint jumps_loop (patched : list string) (self : Algo) (samples : Samples)
  (st : Latent * list R) (js : list nat) : result (Latent * list R) :=
  match js with
  | [] => Ok st
  | j :: js' =>
      st' <- jump patched self samples st j ;;
      jumps_loop patched self samples st' js'
  end.

Definition loss (patched : list string) (self : Algo) (samples : Samples)
  : result (R * list R * list R) :=
  obs_1 <- getitem (all_observation samples) 1 ;;
  act_0 <- getitem (all_action samples) 0 ;;
  rew_0 <- getitem (all_reward samples) 0 ;;
  let conv_base := stem_forward (agent self) obs_1 act_0 rew_0 in
  act_1 <- getitem (all_action samples) 1 ;;
  return_1 <- getitem (return_ samples) 1 ;;
  done_n1 <- getitem (done_n samples) 1 ;;
  obs_n <- getitem (all_observation samples) (n_step_return self + 1) ;;
  act_n <- getitem (all_action samples) (n_step_return self) ;;
  rew_n <- getitem (all_reward samples) (n_step_return self) ;;
  pr <- getattr self "prioritized_replay" ;;
  let w := if pr then PerSample (is_weights samples) else Scalar 1 in
  done_1 <- getitem (done samples) 1 ;;
  '(rl, KL) <-
    rl_loss self conv_base act_1 return_1 done_n1 act_0 rew_0
            obs_n act_n rew_n w (Done1 done_1) ;;
  dm <- getattr self "detach_model" ;;
  let current_latent := if dm then detach conv_base else conv_base in
  _ <- lookup_global patched "to_categorical" ;;
  let reward_target := to_categorical rew_0 1 in
  let pred_rew := reward_predictor (agent self) current_latent in
  _ <- lookup_global patched "F" ;;
  let pred_rew := log_softmax pred_rew in
  let model_loss := map Ropp (sum_last reward_target pred_rew) in
  '(_, model_loss) <-
    jumps_loop patched self samples (current_latent, model_loss)
               (seq 1 (jumps self)) ;;
  pr <- getattr self "prioritized_replay" ;;
  let model_loss :=
    if pr then mul model_loss (is_weights samples) else model_loss in
  Ok (rl, KL, model_loss).

(** ** Vocabulary of the statements about the methods *)





(** The mask [rl_loss] computes from its [done] argument. *)
Definition rl_valid (done : done_tensor) : result (list R) :=
  done_1 <- done_getitem done 1 ;; valid_from_done done_1.

(** The steps of [base_per_sample] that follow the target distribution:
    the indexing of the samples and the selection of the prediction. *)
Definition base_prediction (self : Algo) (samples : Samples)
  : result (list (list R)) :=
  obs_1 <- getitem (all_observation samples) 1 ;;
  act_0 <- getitem (all_action samples) 0 ;;
  rew_0 <- getitem (all_reward samples) 0 ;;
  act_1 <- getitem (all_action samples) 1 ;;
  select_at_indexes act_1 (forward (agent self) obs_1 act_0 rew_0).

(** The statements of [loss] before line 277. *)
Definition loss_step0 (self : Algo) (samples : Samples)
  : result (Latent * list R * R * list R) :=
  obs_1 <- getitem (all_observation samples) 1 ;;
  act_0 <- getitem (all_action samples) 0 ;;
  rew_0 <- getitem (all_reward samples) 0 ;;
  let conv_base := stem_forward (agent self) obs_1 act_0 rew_0 in
  act_1 <- getitem (all_action samples) 1 ;;
  return_1 <- getitem (return_ samples) 1 ;;
  done_n1 <- getitem (done_n samples) 1 ;;
  obs_n <- getitem (all_observation samples) (n_step_return self + 1) ;;
  act_n <- getitem (all_action samples) (n_step_return self) ;;
  rew_n <- getitem (all_reward samples) (n_step_return self) ;;
  pr <- getattr self "prioritized_replay" ;;
  let w := if pr then PerSample (is_weights samples) else Scalar 1 in
  done_1 <- getitem (done samples) 1 ;;
  '(rl, KL) <-
    rl_loss self conv_base act_1 return_1 done_n1 act_0 rew_0
            obs_n act_n rew_n w (Done1 done_1) ;;
  dm <- getattr self "detach_model" ;;
  Ok (if dm then detach conv_base else conv_base, rew_0, rl, KL).

(** The statements of [loss] from line 277 on. *)
Definition loss_model (patched : list string) (self : Algo)
  (samples : Samples)
  (s0 : Latent * list R * R * list R) : result (R * list R * list R) :=
  let '(current_latent, rew_0, rl, KL) := s0 in
  _ <- lookup_global patched "to_categorical" ;;
  let reward_target := to_categorical rew_0 1 in
  let pred_rew := reward_predictor (agent self) current_latent in
  _ <- lookup_global patched "F" ;;
  let pred_rew := log_softmax pred_rew in
  let model_loss := map Ropp (sum_last reward_target pred_rew) in
  '(_, model_loss) <-
    jumps_loop patched self samples
               (current_latent, model_loss) (seq 1 (jumps self)) ;;
  pr <- getattr self "prioritized_replay" ;;
  let model_loss :=
    if pr then mul model_loss (is_weights samples) else model_loss in
  Ok (rl, KL, model_loss).


(** ** PizeroModelCategoricalDQN.optimize_agent, lines 141 to 189

    The replay buffer, the two optimisers and the target network are
    collaborators: what the method does to them is recorded, in order, as a
    list of effects next to the update counter. *)

Variables SamplerBatch BufferBatch : Type.

(** [self.samples_to_buffer], inherited from the base class. *)
Variable samples_to_buffer : SamplerBatch -> BufferBatch.

Inductive optimizer : Type := MainOptimizer | ModelOptimizer.

Inductive effect : Type :=
| AppendSamples (s : BufferBatch)
| SampleBatch (n : nat)
| ZeroGrad (o : optimizer)
| Backward
| ClipGradNorm
| OptimizerStep (o : optimizer)
| UpdateBatchPriorities (td_abs_errors : list R)
| UpdateTarget (tau : R)
| UpdateItrHyperparams (itr : nat).

Record Driver : Type := {
  effects : list effect;
  update_counter : nat
}.

(** What the buffer returns and what gradient norm the clipping reports
    depend on everything done so far. *)
Variable sample_batch : list effect -> nat -> Samples.
Variable grad_norm_of : list effect -> R.

Record OptInfo : Type := {
  opt_loss : list R;
  gradNorm : list R;
  tdAbsErr : list R
}.

(** A computation that changes the driver state and may raise; the state
    reached when an exception is raised is kept. *)
Definition M (A : Type) : Type := Driver -> result A * Driver.

Definition ret {A : Type} (a : A) : M A := fun st => (Ok a, st).

Definition bindM {A B : Type} (m : M A) (k : A -> M B) : M B :=
  fun st =>
    match m st with
    | (Ok a, st') => k a st'
    | (Raise e, st') => (Raise e, st')
    end.

Definition lift {A : Type} (r : result A) : M A := fun st => (r, st).

Definition emit (e : effect) : M unit :=
  fun st => (Ok tt, {| effects := effects st ++ [e];
                       update_counter := update_counter st |}).

Definition history : M (list effect) := fun st => (Ok (effects st), st).

Notation "x <~ m ;; k" := (bindM m (fun x => k))
  (at level 61, m at next level, right associativity).
Notation "m ;;; k" := (bindM m (fun _ => k))
  (at level 61, right associativity).

(** [t.backward()] and [t.item()] need a tensor with one element. *)
Definition backward (t : list R) : M unit :=
  match t with
  | [_] => emit Backward
  | _ => lift (Raise RuntimeError)
  end.

Definition item (t : list R) : result R :=
  match t with
  | [x] => Ok x
  | _ => Raise RuntimeError
  end.

(** [torch.nn.utils.clip_grad_norm_], which returns the norm. *)
Definition clip_grad_norm_ : M R :=
  h <~ history ;;
  emit ClipGradNorm ;;;
  ret (grad_norm_of h).

(** [t[::8]]. *)
Fixpoint stride_from (skip : nat) (t : list R) : list R :=
  match t with
  | [] => []
  | x :: t' =>
      match skip with
      | O => x :: stride_from 7 t'
      | S skip' => stride_from skip' t'
      end
  end.

Definition stride8 (t : list R) : list R := stride_from 0 t.

(** One pass through the body of the loop of lines 156 to 187. *)
Definition update (patched : list string) (self : Algo) (opt_info : OptInfo)
  : M OptInfo :=
  h <~ history ;;
  emit (SampleBatch (batch_size self)) ;;;
  let samples_from_replay := sample_batch h (batch_size self) in
  r <~ lift (loss patched self samples_from_replay) ;;
  let '(loss0, td_abs_errors, model_loss) := r in
  dm <~ lift (getattr self "detach_model") ;;
  lg <~
    (if negb dm then
       let loss1 := map (fun m => loss0 + m) model_loss in
       emit (ZeroGrad MainOptimizer) ;;;
       emit (ZeroGrad ModelOptimizer) ;;;
       backward loss1 ;;;
       grad_norm <~ clip_grad_norm_ ;;
       emit (OptimizerStep MainOptimizer) ;;;
       emit (OptimizerStep ModelOptimizer) ;;;
       ret (loss1, grad_norm)
     else
       emit (ZeroGrad MainOptimizer) ;;;
       backward [loss0] ;;;
       grad_norm <~ clip_grad_norm_ ;;
       emit (OptimizerStep MainOptimizer) ;;;
       emit (ZeroGrad ModelOptimizer) ;;;
       backward model_loss ;;;
       model_grad_norm <~ clip_grad_norm_ ;;
       emit (OptimizerStep ModelOptimizer) ;;;
       ret ([loss0], grad_norm)) ;;
  let '(loss1, grad_norm) := lg in
  pr <~ lift (getattr self "prioritized_replay") ;;
  (if pr then emit (UpdateBatchPriorities td_abs_errors) else ret tt) ;;;
  l <~ lift (item loss1) ;;
  let opt_info :=
    {| opt_loss := opt_loss opt_info ++ [l];
       gradNorm := gradNorm opt_info ++ [grad_norm];
       tdAbsErr := tdAbsErr opt_info ++ stride8 td_abs_errors |} in
  (fun st => (Ok tt, {| effects := effects st;
                        update_counter := S (update_counter st) |})) ;;;
  (fun st =>
     if Nat.eqb (target_update_interval self) 0
     then (Raise ZeroDivisionError, st)
     else if Nat.eqb (update_counter st mod target_update_interval self) 0
          then emit (UpdateTarget (target_update_tau self)) st
          else (Ok tt, st)) ;;;
  ret opt_info.

Fixpoint updates (patched : list string) (self : Algo) (n : nat)
  (opt_info : OptInfo) : M OptInfo :=
  match n with
  | O => ret opt_info
  | S n' =>
      opt_info' <~ update patched self opt_info ;;
      updates patched self n' opt_info'
  end.

Definition optimize_agent (patched : list string) (self : Algo) (itr : nat)
  (samples : option SamplerBatch) (sampler_itr : option nat) : M OptInfo :=
  let itr := match sampler_itr with None => itr | Some s => s end in
  (match samples with
   | Some s => emit (AppendSamples (samples_to_buffer s))
   | None => ret tt
   end) ;;;
  let opt_info := {| opt_loss := []; gradNorm := []; tdAbsErr := [] |} in
  if Nat.ltb itr (min_itr_learn self) then ret opt_info
  else
    opt_info' <~ updates patched self (updates_per_optimize self) opt_info ;;
    emit (UpdateItrHyperparams itr) ;;;
    ret opt_info'.

End Algos.

(** * Vocabulary of the statements *)

(** A probability distribution over the [n] atoms of the support. *)
Definition distribution (n : nat) (p : list R) : Prop :=
  length p = n /\ Forall (fun x => 0 <= x) p /\ torch_sum p = 1.

(** The one-hot distribution at atom [k] of [n]. *)
Definition one_hot (n k : nat) : list R :=
  map (fun i => if Nat.eqb i k then 1 else 0) (seq 0 n).

(** Position [t] is valid when no termination flag is set strictly before
    it; [seen] tells whether a flag was met already. *)
Fixpoint valid_from (seen : bool) (done : list bool) : list bool :=
  match done with
  | [] => []
  | d :: done' => negb seen :: valid_from (seen || d) done'
  end.

Definition valid_flags (done : list bool) : list bool := valid_from false done.

(** The entries of [v] at the positions kept by [keep]. *)
Fixpoint restrict (keep : list bool) (v : list R) : list R :=
  match keep, v with
  | k :: keep', x :: v' =>
      if k then x :: restrict keep' v' else restrict keep' v'
  | _, _ => []
  end.

(** [v] with the entries at the positions not kept by [keep] set to 0. *)
Fixpoint zero_outside (keep : list bool) (v : list R) : list R :=
  match keep, v with
  | k :: keep', x :: v' => (if k then x else 0) :: zero_outside keep' v'
  | _, _ => []
  end.

(** The KL sum of one batch element, lines 111 and 112. *)
Definition kl_row (t p : list R) : R :=
  torch_sum (mul t (map (fun tq => ln (fst tq) - ln (snd tq)) (combine t p))).

(** The NaN-guard on one row. *)
Definition clamp_row (p : list R) : list R :=
  map (fun x => torch_clamp x EPS 1) p.

(** The triangular kernel of line 78 for a shifted atom [x] and an atom [zi]
    of the support. *)
Definition kernel (dz x zi : R) : R :=
  torch_clamp (1 - Rabs (x - zi) / dz) 0 1.

(** Lines 70 to 73 for one batch element with return [r] and termination
    flag [d]. *)
Definition shifted_row (Obs Latent : Type) (self : Algo Obs Latent) (r : R)
  (d : bool) : list R :=
  map (fun x => torch_clamp (r + x) (V_min self) (V_max self))
      (map (fun y => (1 - float d) * y)
           (map (fun x => x * discount self ^ n_step_return self)
                (support self))).

(** Lines 75 to 99 for one batch element whose unprojected distribution is
    [u]. *)
Definition projected_row (Obs Latent : Type) (self : Algo Obs Latent)
  (dz : R) (u : list R) (r : R) (d : bool) : list R :=
  map (fun zi =>
         torch_sum (mul u (map (fun x => kernel dz x zi)
                               (shifted_row self r d))))
      (support self).


(** * Concrete instances *)

(** Modelled from the spec: [src.model_trainer.to_categorical] is imported,
    its text is not part of the module.  Section 4.3 describes it as the
    projection of section 4.1 for a single-point source on a small reward
    support: the reward is clamped to [-limit, limit] and its mass is spread
    over the integers of that range by the triangular kernel. *)
Definition to_categorical_spec (reward : list R) (limit : nat)
  : list (list R) :=
  map (fun r =>
         map (fun s =>
                torch_clamp
                  (1 - Rabs (torch_clamp r (- INR limit) (INR limit) - s)) 0 1)
             (torch_linspace (- INR limit) (INR limit) (2 * limit + 1)))
      reward.

(** An agent over trivial observations and latents whose networks give every
    batch element of a batch of [b] one action with the distribution
    [dist]. *)
Definition constant_agent (n b : nat) (dist : list R) : Agent unit unit :=
  {| n_atoms := n;
     forward := fun _ _ _ => repeat [dist] b;
     target := fun _ _ _ => repeat [dist] b;
     stem_forward := fun _ _ _ => tt;
     head_forward := fun _ _ _ => repeat [dist] b;
     step := fun latent _ => (latent, repeat [0; 0; 0] b);
     reward_predictor := fun _ => repeat [0; 0; 0] b |}.

Definition example_algo (ag : Agent unit unit) (mbr : bool)
  (extra : list (string * bool)) : Algo unit unit :=
  {| agent := ag;
     V_min := -10;
     V_max := 10;
     discount := 99 / 100;
     n_step_return := 1;
     jumps := 1;
     detach_model := true;
     double_dqn := false;
     prioritized_replay := true;
     mid_batch_reset := mbr;
     min_itr_learn := 10;
     updates_per_optimize := 1;
     batch_size := 1;
     target_update_interval := 1;
     target_update_tau := 1;
     clip_grad_norm := 10;
     extra_attrs := extra |}.

(** The instance of the end-to-end scenario. *)
Definition scenario_algo : Algo unit unit :=
  example_algo (constant_agent 11 1 (one_hot 11 5)) true [].

(** Two atoms, batches of one element, [mid_batch_reset] set. *)
Definition small_algo (extra : list (string * bool)) : Algo unit unit :=
  example_algo (constant_agent 2 1 [1; 0]) true extra.

(** Two atoms, batches of three elements, [mid_batch_reset] unset. *)
Definition masked_algo : Algo unit unit :=
  example_algo (constant_agent 2 3 [1; 0]) false [].

(** A batch of one element over four time offsets; [rew_1] is the reward at
    offset 1. *)
Definition example_samples (rew_1 : R) : Samples unit :=
  {| all_observation := [tt; tt; tt; tt];
     all_action := [[0]; [0]; [0]; [0]]%nat;
     all_reward := [[0]; [rew_1]; [0]; [0]];
     return_ := [[1]; [1]; [1]; [1]];
     done := [[false]; [false]; [false]; [false]];
     done_n := [[false]; [false]; [false]; [false]];
     is_weights := [1] |}.

(** A batch of three elements whose flags [done[1]] are set at position 1
    only. *)
Definition masked_samples : Samples unit :=
  {| all_observation := [tt; tt; tt];
     all_action := [[0; 0; 0]; [0; 0; 0]; [0; 0; 0]]%nat;
     all_reward := [[0; 0; 0]; [0; 0; 0]; [0; 0; 0]];
     return_ := [[1; 1; 1]; [1; 1; 1]; [1; 1; 1]];
     done := [[false; false; false]; [false; true; false];
              [false; false; false]];
     done_n := [[false; false; false]; [false; false; false];
                [false; false; false]];
     is_weights := [1; 1; 1] |}.

(** An instance as the constructor builds it, with one jump. *)
Definition constructed_algo : Algo unit unit := init 1 true (small_algo []).

(** An instance on which the attribute [prioritize_replay] was set by hand,
    in a module where [F] was bound by hand. *)
Definition patched_algo : Algo unit unit :=
  small_algo [("prioritize_replay"%string, true)].

(** The scenario's instance with discount 1. *)
Definition undiscounted_algo : Algo unit unit :=
  {| agent := constant_agent 11 1 (one_hot 11 5);
     V_min := -10;
     V_max := 10;
     discount := 1;
     n_step_return := 1;
     jumps := 0;
     detach_model := true;
     double_dqn := false;
     prioritized_replay := false;
     mid_batch_reset := true;
     min_itr_learn := 10;
     updates_per_optimize := 1;
     batch_size := 1;
     target_update_interval := 1;
     target_update_tau := 1;
     clip_grad_norm := 10;
     extra_attrs := [] |}.

(** Two atoms, batches of two elements, the attribute [prioritize_replay]
    set by hand. *)
Definition pair_algo : Algo unit unit :=
  example_algo (constant_agent 2 2 [1; 0]) true
               [("prioritize_replay"%string, true)].

(** A batch of two elements over four time offsets. *)
Definition pair_samples : Samples unit :=
  {| all_observation := [tt; tt; tt; tt];
     all_action := [[0; 0]; [0; 0]; [0; 0]; [0; 0]]%nat;
     all_reward := [[0; 0]; [1; 1]; [0; 0]; [0; 0]];
     return_ := [[1; 1]; [1; 1]; [1; 1]; [1; 1]];
     done := [[false; false]; [false; false]; [false; false];
              [false; false]];
     done_n := [[false; false]; [false; false]; [false; false];
                [false; false]];
     is_weights := [1; 1] |}.

(** An agent with two atoms and two actions on batches of one element whose
    networks disagree: the live network puts all mass of action 0 on the top
    atom and of action 1 on the bottom atom, the target network does the
    opposite and spreads the mass of action 0 a little. *)
Definition disagreeing_agent : Agent unit unit :=
  {| n_atoms := 2;
     forward := fun _ _ _ => [[[0; 1]; [1; 0]]];
     target := fun _ _ _ => [[[3 / 4; 1 / 4]; [0; 1]]];
     stem_forward := fun _ _ _ => tt;
     head_forward := fun _ _ _ => [[[0; 1]; [1; 0]]];
     step := fun latent _ => (latent, [[0; 0; 0]]);
     reward_predictor := fun _ => [[0; 0; 0]] |}.

(** An instance over the disagreeing networks, with [double_dqn] as given. *)
Definition selection_algo (dd : bool) : Algo unit unit :=
  {| agent := disagreeing_agent;
     V_min := -10;
     V_max := 10;
     discount := 1 / 2;
     n_step_return := 1;
     jumps := 0;
     detach_model := true;
     double_dqn := dd;
     prioritized_replay := true;
     mid_batch_reset := true;
     min_itr_learn := 10;
     updates_per_optimize := 1;
     batch_size := 1;
     target_update_interval := 1;
     target_update_tau := 1;
     clip_grad_norm := 10;
     extra_attrs := [] |}.

(** * Properties *)

Unset Implicit Arguments.

(** ** Real-number and list facts *)

Lemma EPS_pos : 0 < EPS.
Proof. unfold EPS. lra. Qed.

Lemma torch_clamp_bounds (x lo hi : R) :
  lo <= hi -> lo <= torch_clamp x lo hi <= hi.
Proof.
  intros Hle. unfold torch_clamp, Rmin, Rmax.
  destruct (Rle_dec x lo); destruct (Rle_dec _ hi); lra.
Qed.

Lemma torch_clamp_id (x lo hi : R) :
  lo <= x <= hi -> torch_clamp x lo hi = x.
Proof.
  intros Hx. unfold torch_clamp, Rmin, Rmax.
  destruct (Rle_dec x lo); destruct (Rle_dec _ hi); lra.
Qed.

Lemma torch_clamp_low (x lo hi : R) :
  x <= lo -> lo <= hi -> torch_clamp x lo hi = lo.
Proof.
  intros Hx Hle. unfold torch_clamp, Rmin, Rmax.
  destruct (Rle_dec x lo); destruct (Rle_dec _ hi); lra.
Qed.

Lemma torch_clamp_high (x lo hi : R) :
  hi <= x -> lo <= hi -> torch_clamp x lo hi = hi.
Proof.
  intros Hx Hle. unfold torch_clamp, Rmin, Rmax.
  destruct (Rle_dec x lo); destruct (Rle_dec _ hi); lra.
Qed.

(** The triangular kernel is a difference of two ramps. *)
Lemma triangle_as_ramps (v : R) :
  torch_clamp (1 - Rabs v) 0 1 = torch_clamp (v + 1) 0 1 - torch_clamp v 0 1.
Proof.
  destruct (Rle_dec v 0) as [Hneg|Hpos].
  - rewrite (Rabs_left1 v) by lra.
    rewrite (torch_clamp_low v) by lra.
    destruct (Rle_dec v (-1)).
    + rewrite !torch_clamp_low by lra. lra.
    + rewrite !torch_clamp_id by lra. lra.
  - rewrite (Rabs_pos_eq v) by lra.
    rewrite (torch_clamp_high (v + 1)) by lra.
    destruct (Rle_dec v 1).
    + rewrite !torch_clamp_id by lra. lra.
    + rewrite torch_clamp_low, torch_clamp_high by lra. lra.
Qed.

Lemma triangle_sum_seq (u : R) (len s : nat) :
  torch_sum (map (fun i => torch_clamp (1 - Rabs (u - INR i)) 0 1) (seq s len))
  = torch_clamp (u - INR s + 1) 0 1 - torch_clamp (u - INR (s + len) + 1) 0 1.
Proof.
  revert s. induction len as [|len IH]; intros s.
  - simpl. rewrite Nat.add_0_r. lra.
  - simpl seq. simpl map. simpl torch_sum. rewrite IH.
    rewrite triangle_as_ramps.
    replace (s + S len)%nat with (S s + len)%nat by lia.
    rewrite S_INR.
    replace (u - (INR s + 1) + 1) with (u - INR s) by lra. lra.
Qed.

Lemma torch_sum_mul_map_add (g h : R -> R) (xs u : list R) :
  torch_sum (mul u (map g xs)) + torch_sum (mul u (map h xs))
  = torch_sum (mul u (map (fun x => g x + h x) xs)).
Proof.
  revert u. induction xs as [|x xs IH]; intros [|a u]; simpl; try lra.
  rewrite <- IH. lra.
Qed.

Lemma torch_sum_mul_map_zero (xs u : list R) :
  torch_sum (mul u (map (fun _ => 0) xs)) = 0.
Proof.
  revert u. induction xs as [|x xs IH]; intros [|a u]; simpl; try lra.
  rewrite IH. lra.
Qed.

(** Summing the projected row over the atoms of the support is summing the
    source masses, each weighted by the sum of its coefficients. *)
Lemma project_row_sum (f : R -> R -> R) (zs xs u : list R) :
  torch_sum (map (fun zi => torch_sum (mul u (map (fun x => f x zi) xs))) zs)
  = torch_sum (mul u (map (fun x => torch_sum (map (fun zi => f x zi) zs)) xs)).
Proof.
  induction zs as [|z zs IH]; simpl.
  - now rewrite torch_sum_mul_map_zero.
  - rewrite IH. apply torch_sum_mul_map_add.
Qed.

Lemma torch_sum_mul_map_one (F : R -> R) (xs u : list R) :
  (forall x, In x xs -> F x = 1) -> length u = length xs ->
  torch_sum (mul u (map F xs)) = torch_sum u.
Proof.
  revert u. induction xs as [|x xs IH]; intros [|a u] HF Hlen;
    simpl in *; try lia; try lra.
  rewrite HF by auto. rewrite IH by (auto; lia). lra.
Qed.

(** The coefficients of one shifted atom sum to one over the support. *)
Lemma coefficients_sum_to_one (a b dz x : R) (n : nat) :
  (2 <= n)%nat -> a < b -> dz = (b - a) / (INR n - 1) -> a <= x <= b ->
  torch_sum (map (fun zi => torch_clamp (1 - Rabs (x - zi) / dz) 0 1)
                 (torch_linspace a b n)) = 1.
Proof.
  intros Hn Hab Hdz Hx.
  assert (Hn1 : 1 <= INR n - 1).
  { apply le_INR in Hn. simpl in Hn. lra. }
  assert (Hpos : 0 < dz).
  { subst dz. apply Rdiv_lt_0_compat; lra. }
  unfold torch_linspace. rewrite map_map. rewrite <- Hdz.
  set (u := (x - a) / dz).
  rewrite (map_ext _ (fun i => torch_clamp (1 - Rabs (u - INR i)) 0 1)).
  - rewrite triangle_sum_seq. simpl INR.
    assert (Hu : 0 <= u <= INR n - 1).
    { unfold u. split.
      - apply Rmult_le_reg_r with dz; [lra|].
        unfold Rdiv. rewrite Rmult_assoc, Rinv_l by lra. lra.
      - apply Rmult_le_reg_r with dz; [lra|].
        unfold Rdiv at 1. rewrite Rmult_assoc, Rinv_l by lra.
        replace ((INR n - 1) * dz) with (b - a).
        + lra.
        + subst dz. field. lra. }
    rewrite torch_clamp_high by lra.
    rewrite torch_clamp_low by lra. lra.
  - intros i. f_equal. f_equal.
    replace (x - (a + INR i * dz)) with ((u - INR i) * dz).
    + rewrite Rabs_mult, (Rabs_pos_eq dz) by lra. field. lra.
    + unfold u. field. lra.
Qed.

(** ** Projection: mass conservation *)

Section Projection.

Variables Obs Latent : Type.
Variable self : Algo Obs Latent.

Lemma length_torch_linspace (a b : R) (n : nat) :
  length (torch_linspace a b n) = n.
Proof. unfold torch_linspace. now rewrite length_map, length_seq. Qed.

Lemma length_support : length (support self) = n_atoms (agent self).
Proof. apply length_torch_linspace. Qed.

Lemma length_shifted_support (return_n : list R) (done_n : list bool) :
  length (shifted_support self return_n done_n)
  = Nat.min (length return_n) (length done_n).
Proof.
  unfold shifted_support, torch_ger.
  now rewrite length_map, length_combine, !length_map.
Qed.

Lemma shifted_support_row (return_n : list R) (done_n : list bool)
  (row : list R) :
  In row (shifted_support self return_n done_n) ->
  length row = n_atoms (agent self) /\
  (V_min self <= V_max self ->
   forall x, In x row -> V_min self <= x <= V_max self).
Proof.
  unfold shifted_support, torch_ger. intros Hin.
  apply in_map_iff in Hin. destruct Hin as [[r gz] [<- Hin]].
  apply in_combine_r in Hin.
  apply in_map_iff in Hin. destruct Hin as [d [<- _]].
  simpl. split.
  - now rewrite !length_map, length_support.
  - intros Hle x Hx. apply in_map_iff in Hx. destruct Hx as [y [<- _]].
    now apply torch_clamp_bounds.
Qed.

Lemma length_projection_coeffs (dz : R) (return_n : list R)
  (done_n : list bool) :
  length (projection_coeffs self dz return_n done_n)
  = Nat.min (length return_n) (length done_n).
Proof.
  unfold projection_coeffs. now rewrite length_map, length_shifted_support.
Qed.

(** One row of the projected target: the masses of [u] spread over the
    support from the shifted atoms [xs]. *)
Lemma projected_row_mass (dz : R) (u xs : list R) :
  V_min self < V_max self -> (2 <= n_atoms (agent self))%nat ->
  delta_z self = Ok dz ->
  length u = length xs ->
  (forall x, In x xs -> V_min self <= x <= V_max self) ->
  torch_sum
    (map (fun coeff_i => torch_sum (mul u coeff_i))
         (map (fun zi =>
                 map (fun x => torch_clamp (1 - Rabs (x - zi) / dz) 0 1) xs)
              (support self)))
  = torch_sum u.
Proof.
  intros Hlt Hn Hdz Hlen Hxs.
  unfold delta_z in Hdz.
  destruct (Nat.eqb_spec (n_atoms (agent self)) 1) as [E|_]; [lia|].
  injection Hdz as Hdz.
  rewrite map_map.
  rewrite (project_row_sum
             (fun x zi => torch_clamp (1 - Rabs (x - zi) / dz) 0 1)).
  apply torch_sum_mul_map_one; [|assumption].
  intros x Hx. unfold support.
  apply coefficients_sum_to_one; auto.
Qed.

(** C4. Projection mass conservation: on a support with [V_min < V_max] and at
    least two atoms, for every batch of returns and termination flags and
    every batch of unprojected distributions over the support (nonnegative,
    summing to 1), the projected target has one row per batch element, every
    row has one entry per atom and sums to 1, hence is within 1e-5 of 1. *)
Theorem projection_mass_conservation (dz : R) (return_n : list R)
  (done_n : list bool) (target_p_unproj : list (list R)) :
  V_min self < V_max self -> (2 <= n_atoms (agent self))%nat ->
  delta_z self = Ok dz ->
  length return_n = length target_p_unproj ->
  length done_n = length target_p_unproj ->
  Forall (distribution (n_atoms (agent self))) target_p_unproj ->
  let target_p :=
    project target_p_unproj (projection_coeffs self dz return_n done_n) in
  length target_p = length target_p_unproj /\
  Forall (fun row => length row = n_atoms (agent self) /\
                     torch_sum row = 1 /\
                     Rabs (torch_sum row - 1) <= 1 / 100000) target_p.
Proof.
  intros Hlt Hn Hdz Hr Hd Hdist target_p. subst target_p. split.
  - unfold project.
    rewrite length_map, length_combine, length_projection_coeffs. lia.
  - apply Forall_forall. intros row Hrow. unfold project in Hrow.
    apply in_map_iff in Hrow. destruct Hrow as [[u c] [<- Hin]]. simpl.
    pose proof (in_combine_l _ _ _ _ Hin) as Hu.
    pose proof (in_combine_r _ _ _ _ Hin) as Hc.
    unfold projection_coeffs in Hc.
    apply in_map_iff in Hc. destruct Hc as [xs [<- Hxs]].
    apply shifted_support_row in Hxs. destruct Hxs as [Hlen Hrange].
    rewrite Forall_forall in Hdist.
    destruct (Hdist u Hu) as [Hulen [_ Hsum]].
    assert (Hmass :
      torch_sum
        (map (fun coeff_i => torch_sum (mul u coeff_i))
             (map (fun zi =>
                     map (fun x => torch_clamp (1 - Rabs (x - zi) / dz) 0 1) xs)
                  (support self))) = 1).
    { rewrite (projected_row_mass dz u xs); auto; try lia.
      apply Hrange. lra. }
    split; [|split].
    + now rewrite !length_map, length_support.
    + exact Hmass.
    + rewrite Hmass. replace (1 - 1) with 0 by lra. rewrite Rabs_R0. lra.
Qed.

End Projection.

(** ** Projection: the end-to-end scenario *)

Lemma torch_sum_mul_indicator (k s n : nat) (c : list R) :
  torch_sum (mul (map (fun i => if Nat.eqb i k then 1 else 0) (seq s n)) c)
  = if andb (Nat.leb s k) (Nat.ltb k (s + n)) then nth (k - s) c 0 else 0.
Proof.
  revert s c. induction n as [|n IH]; intros s c.
  - simpl. destruct (Nat.leb_spec s k); destruct (Nat.ltb_spec k (s + 0));
      simpl; try reflexivity; lia.
  - destruct c as [|x c].
    + simpl. destruct (k - s)%nat; now destruct (_ && _).
    + simpl seq. simpl map. simpl mul. simpl torch_sum. rewrite IH.
      destruct (Nat.eqb_spec s k) as [->|Hne].
      * rewrite Nat.sub_diag. simpl nth.
        replace (Nat.leb (S k) k) with false
          by (symmetry; apply Nat.leb_gt; lia).
        replace (Nat.leb k k) with true by (symmetry; apply Nat.leb_refl).
        replace (Nat.ltb k (k + S n)) with true
          by (symmetry; apply Nat.ltb_lt; lia).
        simpl. lra.
      * destruct (Nat.leb_spec (S s) k) as [Hle|Hgt].
        -- replace (Nat.leb s k) with true
             by (symmetry; apply Nat.leb_le; lia).
           replace (S s + n)%nat with (s + S n)%nat by lia.
           destruct (Nat.ltb k (s + S n)); simpl; [|lra].
           replace (k - s)%nat with (S (k - S s)) by lia. simpl. lra.
        -- replace (Nat.leb s k) with false
             by (symmetry; apply Nat.leb_gt; lia).
           simpl. lra.
Qed.

Lemma torch_sum_mul_one_hot (n k : nat) (c : list R) :
  (k < n)%nat -> torch_sum (mul (one_hot n k) c) = nth k c 0.
Proof.
  intros Hk. unfold one_hot. rewrite torch_sum_mul_indicator.
  simpl. replace (Nat.ltb k n) with true by (symmetry; apply Nat.ltb_lt; lia).
  now rewrite Nat.sub_0_r.
Qed.

Lemma argmax_from_lt (v : list R) (best : R) (besti i : nat) :
  (besti < i)%nat -> (argmax_from best besti i v < i + length v)%nat.
Proof.
  revert best besti i. induction v as [|x v IH]; intros best besti i Hlt.
  - simpl. lia.
  - simpl. destruct (Rlt_dec best x).
    + specialize (IH x i (S i)). lia.
    + specialize (IH best besti (S i)). lia.
Qed.

Lemma argmax_lt (v : list R) :
  v <> [] -> exists k, argmax v = Ok k /\ (k < length v)%nat.
Proof.
  destruct v as [|x v]; [congruence|]. intros _. simpl.
  eexists. split; [reflexivity|].
  pose proof (argmax_from_lt v x 0 1). lia.
Qed.

(** The triangular kernel, case by case. *)
Lemma kernel_far (x z dz : R) :
  0 < dz -> dz <= x - z \/ dz <= z - x ->
  torch_clamp (1 - Rabs (x - z) / dz) 0 1 = 0.
Proof.
  intros Hdz H. apply torch_clamp_low; [|lra].
  assert (1 <= Rabs (x - z) / dz); [|lra].
  apply Rmult_le_reg_r with dz; [lra|].
  unfold Rdiv. rewrite Rmult_assoc, Rinv_l by lra.
  destruct H; [rewrite Rabs_pos_eq by lra | rewrite Rabs_left1 by lra]; lra.
Qed.

Lemma kernel_near (x z dz : R) :
  0 < dz -> 0 <= x - z <= dz ->
  torch_clamp (1 - Rabs (x - z) / dz) 0 1 = 1 - (x - z) / dz.
Proof.
  intros Hdz H. rewrite Rabs_pos_eq by lra. apply torch_clamp_id.
  assert (0 <= (x - z) / dz <= 1); [|lra]. split.
  - apply Rmult_le_reg_r with dz; [lra|].
    unfold Rdiv. rewrite Rmult_assoc, Rinv_l by lra. lra.
  - apply Rmult_le_reg_r with dz; [lra|].
    unfold Rdiv. rewrite Rmult_assoc, Rinv_l by lra. lra.
Qed.

Lemma kernel_near_below (x z dz : R) :
  0 < dz -> 0 <= z - x <= dz ->
  torch_clamp (1 - Rabs (x - z) / dz) 0 1 = 1 - (z - x) / dz.
Proof.
  intros Hdz H. rewrite Rabs_left1 by lra.
  replace (- (x - z)) with (z - x) by lra. apply torch_clamp_id.
  assert (0 <= (z - x) / dz <= 1); [|lra]. split.
  - apply Rmult_le_reg_r with dz; [lra|].
    unfold Rdiv. rewrite Rmult_assoc, Rinv_l by lra. lra.
  - apply Rmult_le_reg_r with dz; [lra|].
    unfold Rdiv. rewrite Rmult_assoc, Rinv_l by lra. lra.
Qed.

Section Scenario.
Variables Obs Latent : Type.
Variable self : Algo Obs Latent.
Hypothesis HVmin : V_min self = -10.
Hypothesis HVmax : V_max self = 10.
Hypothesis Hn : n_atoms (agent self) = 11%nat.
Hypothesis Hdisc : discount self = 99 / 100.
Hypothesis Hstep : n_step_return self = 1%nat.

Lemma scenario_delta_z : delta_z self = Ok 2.
Proof.
  unfold delta_z. rewrite Hn, HVmin, HVmax. simpl Nat.eqb. cbv iota.
  f_equal. simpl INR. field.
Qed.

Lemma scenario_project :
  project [one_hot 11 5] (projection_coeffs self 2 [1] [false])
  = [[0; 0; 0; 0; 0; 1 / 2; 1 / 2; 0; 0; 0; 0]].
Proof.
  unfold projection_coeffs, shifted_support, support, project, torch_ger, torch_linspace.
  rewrite Hn, HVmin, HVmax, Hdisc, Hstep.
  cbn [map seq combine fst snd float].
  rewrite !torch_sum_mul_one_hot by lia.
  cbn [nth].
  set (x5 := torch_clamp _ (-10) 10).
  assert (Hx5 : x5 = 1).
  { unfold x5. simpl INR. simpl pow. rewrite torch_clamp_id; lra. }
  rewrite Hx5. simpl INR.
  repeat match goal with |- _ :: _ = _ :: _ => f_equal end;
    first [ rewrite kernel_far by lra; reflexivity
          | rewrite kernel_near by lra; lra
          | rewrite kernel_near_below by lra; lra ].
Qed.

Lemma getattr_double_dqn (a : Algo Obs Latent) :
  getattr a "double_dqn" = Ok (double_dqn a).
Proof. reflexivity. Qed.

Lemma nth_error_constant {A : Type} (x : A) (rows : list A) (k : nat) :
  Forall (eq x) rows -> (k < length rows)%nat -> nth_error rows k = Some x.
Proof.
  intros Hall Hk. destruct (nth_error rows k) as [y|] eqn:E.
  - rewrite Forall_forall in Hall. apply nth_error_In in E.
    now rewrite (Hall y E).
  - apply nth_error_None in E. lia.
Qed.

Lemma greedy_single (a : Algo Obs Latent) (rows : list (list R)) :
  rows <> [] ->
  exists k, greedy a [rows] = Ok [k] /\ (k < length rows)%nat.
Proof.
  intros Hne. unfold greedy, tensordot. simpl.
  destruct (argmax_lt (map (fun p => torch_sum (mul p (support a))) rows))
    as [k [-> Hk]].
  - destruct rows; [congruence|discriminate].
  - exists k. split; [reflexivity|]. now rewrite length_map in Hk.
Qed.

(** C5. End-to-end scenario: with [V_min = -10], [V_max = 10], 11 atoms,
    discount 0.99 and one-step returns, a batch of one element with return 1
    and no termination, and a target network whose distribution is the
    one-hot at atom 5 for every action, [PizeroCategoricalDQN.loss] computes
    the target distribution with weight 1/2 at atoms 5 and 6 and 0 at every
    other atom. *)
Theorem end_to_end_scenario (samples : Samples Obs) (obs : Obs)
  (act : list nat) (rew : list R) (rows : list (list R)) :
  nth_error (done_n samples) 1 = Some [false] ->
  nth_error (return_ samples) 1 = Some [1] ->
  nth_error (all_observation samples) 2 = Some obs ->
  nth_error (all_action samples) 1 = Some act ->
  nth_error (all_reward samples) 1 = Some rew ->
  target (agent self) obs act rew = [rows] ->
  rows <> [] ->
  Forall (eq (one_hot 11 5)) rows ->
  (double_dqn self = true ->
   exists live, forward (agent self) obs act rew = [live] /\
                length live = length rows) ->
  base_target_p self samples
  = Ok [[0; 0; 0; 0; 0; 1 / 2; 1 / 2; 0; 0; 0; 0]].
Proof.
  intros Hdone Hret Hobs Hact Hrew Htarget Hne Hhot Hlive.
  unfold base_target_p. rewrite scenario_delta_z. unfold getitem.
  rewrite Hstep. simpl Nat.add.
  rewrite Hdone, Hret, Hobs, Hact, Hrew. cbn [bind].
  rewrite getattr_double_dqn. cbn [bind]. rewrite Htarget.
  assert (Hsel : exists k,
    (if double_dqn self then greedy self (forward (agent self) obs act rew)
     else greedy self [rows]) = Ok [k] /\ (k < length rows)%nat).
  { destruct (double_dqn self).
    - destruct (Hlive eq_refl) as [live [-> Hlen]].
      rewrite <- Hlen. apply greedy_single.
      destruct live, rows; simpl in *; congruence.
    - now apply greedy_single. }
  destruct Hsel as [k [-> Hk]]. cbn [bind].
  unfold select_at_indexes. simpl. unfold getitem.
  rewrite (nth_error_constant (one_hot 11 5)) by assumption.
  cbn [bind]. now rewrite scenario_project.
Qed.

End Scenario.

(** ** Next-action selection *)






Section Selection.

Variables Obs Latent : Type.
Variable self : Algo Obs Latent.





End Selection.

(** ** The validity mask *)

Lemma valid_from_nth (done : list bool) (seen : bool) (t : nat) :
  (t < length done)%nat ->
  nth t (valid_from seen done) false
  = negb (seen || existsb (fun d => d) (firstn t done)).
Proof.
  revert seen t. induction done as [|d done IH]; intros seen [|t] Hlt;
    simpl in *; try lia.
  - now rewrite orb_false_r.
  - rewrite IH by lia. now rewrite orb_assoc.
Qed.

Lemma valid_flags_nth (done : list bool) (t : nat) :
  (t < length done)%nat ->
  nth t (valid_flags done) false
  = negb (existsb (fun d => d) (firstn t done)).
Proof. intros Hlt. unfold valid_flags. now rewrite valid_from_nth. Qed.

Lemma length_valid_from (done : list bool) (seen : bool) :
  length (valid_from seen done) = length done.
Proof.
  revert seen. induction done as [|d done IH]; intros seen; simpl;
    [reflexivity|]. now rewrite IH.
Qed.

(** The running sum of the flags is 0 until a flag is met and at least 1
    afterwards. *)
Lemma mask_tail (done : list bool) (d0 : bool) (acc : R) (seen : bool) :
  (seen = false -> acc = 0) -> (seen = true -> 1 <= acc) ->
  map (fun c => 1 - Rmin c 1)
      (cumsum_from acc (map float (removelast (d0 :: done))))
  = map float (valid_from (seen || d0) done).
Proof.
  revert d0 acc seen.
  induction done as [|d done IH]; intros d0 acc seen H0 H1; [reflexivity|].
  change (removelast (d0 :: d :: done)) with (d0 :: removelast (d :: done)).
  cbn [map cumsum_from valid_from].
  assert (Hacc : (seen || d0 = false -> acc + float d0 = 0) /\
                 (seen || d0 = true -> 1 <= acc + float d0)).
  { unfold float. destruct seen, d0; simpl; split; intros Hs;
      try discriminate;
      try specialize (H1 eq_refl); try specialize (H0 eq_refl); lra. }
  destruct Hacc as [Hacc0 Hacc1].
  f_equal.
  - unfold Rmin. destruct (seen || d0); simpl.
    + specialize (Hacc1 eq_refl). destruct (Rle_dec _ 1); lra.
    + rewrite (Hacc0 eq_refl). destruct (Rle_dec 0 1); lra.
  - now apply IH.
Qed.

Lemma valid_mask_flags (done : list bool) :
  valid_mask done = map float (valid_flags done).
Proof.
  destruct done as [|d done]; [reflexivity|].
  unfold valid_mask, valid_flags, torch_cumsum. simpl valid_from.
  simpl map at 3. f_equal.
  now apply (mask_tail done d 0 false).
Qed.

Lemma mul_mask (keep : list bool) (v : list R) :
  mul v (map float keep) = zero_outside keep v.
Proof.
  revert v. induction keep as [|k keep IH]; intros [|x v]; simpl;
    try reflexivity.
  rewrite IH. f_equal. destruct k; simpl; lra.
Qed.

Lemma torch_sum_zero_outside (keep : list bool) (v : list R) :
  torch_sum (zero_outside keep v) = torch_sum (restrict keep v).
Proof.
  revert v. induction keep as [|k keep IH]; intros [|x v]; simpl;
    try reflexivity.
  rewrite IH. destruct k; simpl; lra.
Qed.

Lemma torch_sum_mask (keep : list bool) (v : list R) :
  length v = length keep ->
  torch_sum (map float keep) = INR (length (restrict keep v)).
Proof.
  revert v. induction keep as [|k keep IH]; intros [|x v] Hlen;
    simpl in *; try lia; try reflexivity.
  destruct k.
  - change (length (x :: restrict keep v)) with (S (length (restrict keep v))).
    rewrite S_INR, (IH v) by lia. simpl. lra.
  - rewrite (IH v) by lia. simpl. lra.
Qed.

(** The masked mean is the mean of the entries at the valid positions. *)
Lemma valid_mean_restrict (done : list bool) (losses : list R) :
  length losses = length done ->
  valid_mean losses (valid_mask done)
  = torch_mean (restrict (valid_flags done) losses).
Proof.
  intros Hlen. unfold valid_mean, torch_mean.
  rewrite valid_mask_flags, mul_mask, torch_sum_zero_outside.
  rewrite (torch_sum_mask _ losses); [reflexivity|].
  unfold valid_flags. now rewrite length_valid_from.
Qed.

Lemma zero_outside_nth (keep : list bool) (v : list R) (t : nat) :
  (t < length keep)%nat ->
  nth t (zero_outside keep v) 0
  = if nth t keep false then nth t v 0 else 0.
Proof.
  revert v t. induction keep as [|k keep IH]; intros [|x v] [|t] Hlt;
    simpl in *; try lia; try reflexivity.
  - now destruct k.
  - now destruct (nth t keep false).
  - apply IH. lia.
Qed.

(** ** The KL statistic *)

Lemma ln_le_minus_1 (z : R) : 0 < z -> ln z <= z - 1.
Proof.
  intros Hz. pose proof (exp_ineq1_le (ln z)) as H.
  rewrite exp_ln in H by assumption. lra.
Qed.

Lemma kl_term_lower (x y : R) :
  0 < x -> 0 < y -> x - y <= x * (ln x - ln y).
Proof.
  intros Hx Hy.
  assert (Hq : 0 < y * / x).
  { apply Rmult_lt_0_compat; [assumption|]. now apply Rinv_0_lt_compat. }
  pose proof (ln_le_minus_1 (y * / x) Hq) as H.
  rewrite ln_mult in H by (try assumption; now apply Rinv_0_lt_compat).
  rewrite ln_Rinv in H by assumption.
  assert (Hm : x * (ln y + - ln x) <= x * (y * / x - 1)).
  { apply Rmult_le_compat_l; lra. }
  replace (x * (y * / x - 1)) with (y - x) in Hm by (field; lra).
  lra.
Qed.

Lemma kl_sum_rows (target_p p : list (list R)) :
  kl_sum target_p p = map (fun tp => kl_row (fst tp) (snd tp)) (combine target_p p).
Proof. reflexivity. Qed.

Lemma kl_row_lower (t p : list R) :
  length t = length p ->
  Forall (fun x => 0 < x) t -> Forall (fun x => 0 < x) p ->
  torch_sum t - torch_sum p <= kl_row t p.
Proof.
  unfold kl_row. revert p.
  induction t as [|x t IH]; intros [|y p] Hlen Ht Hp; simpl in *;
    try lia; try lra.
  inversion Ht; subst. inversion Hp; subst.
  specialize (IH p). pose proof (kl_term_lower x y).
  assert (length t = length p) by lia. intuition lra.
Qed.

Lemma clamp_row_positive (p : list R) : Forall (fun x => 0 < x) (clamp_row p).
Proof.
  apply Forall_forall. intros x Hx. apply in_map_iff in Hx.
  destruct Hx as [y [<- _]].
  pose proof (torch_clamp_bounds y EPS 1). pose proof EPS_pos.
  unfold EPS in *. lra.
Qed.

Lemma clamp_row_sum_lower (t : list R) :
  Forall (fun x => x <= 1) t -> torch_sum t <= torch_sum (clamp_row t).
Proof.
  induction 1 as [|x t Hx _ IH]; simpl; [lra|].
  assert (x <= torch_clamp x EPS 1); [|lra].
  unfold torch_clamp, Rmin, Rmax, EPS.
  destruct (Rle_dec x (1 / 1000000)); destruct (Rle_dec _ 1); lra.
Qed.

Lemma clamp_row_sum_upper (p : list R) :
  Forall (fun x => 0 <= x) p ->
  torch_sum (clamp_row p) <= torch_sum p + INR (length p) * EPS.
Proof.
  induction 1 as [|x p Hx _ IH]; [simpl; lra|].
  change (length (x :: p)) with (S (length p)). rewrite S_INR. simpl.
  assert (torch_clamp x EPS 1 <= x + EPS); [|lra].
  unfold torch_clamp, Rmin, Rmax, EPS.
  destruct (Rle_dec x (1 / 1000000)); destruct (Rle_dec _ 1); lra.
Qed.

Lemma nonnegative_sum (p : list R) :
  Forall (fun x => 0 <= x) p ->
  0 <= torch_sum p /\ Forall (fun x => x <= torch_sum p) p.
Proof.
  induction 1 as [|x p Hx _ [IH0 IH]]; simpl.
  - split; [lra|constructor].
  - split; [lra|]. constructor; [lra|].
    eapply Forall_impl; [|exact IH]. simpl. intros. lra.
Qed.

Lemma distribution_le_1 (n : nat) (p : list R) :
  distribution n p -> Forall (fun x => x <= 1) p.
Proof.
  intros [_ [Hnn Hsum]]. destruct (nonnegative_sum p Hnn) as [_ H].
  now rewrite Hsum in H.
Qed.

(** The KL sum of two clamped distributions over [n] atoms is at least
    [- n * EPS]. *)
Lemma kl_row_clamped_lower (n : nat) (t p : list R) :
  distribution n t -> distribution n p ->
  - (INR n * EPS) <= kl_row (clamp_row t) (clamp_row p).
Proof.
  intros Ht Hp.
  pose proof (distribution_le_1 n t Ht) as Ht1.
  destruct Ht as [Hlt [_ Hst]]. destruct Hp as [Hlp [Hpn Hsp]].
  pose proof (kl_row_lower (clamp_row t) (clamp_row p)) as H.
  unfold clamp_row in H at 1 2. rewrite !length_map in H.
  specialize (H ltac:(lia) (clamp_row_positive t) (clamp_row_positive p)).
  pose proof (clamp_row_sum_lower t Ht1).
  pose proof (clamp_row_sum_upper p Hpn) as Hup. rewrite Hlp in Hup.
  lra.
Qed.

Lemma kl_div_bounds (target_p p : list (list R)) :
  Forall (fun k => EPS <= k <= 1 / EPS) (kl_div target_p p).
Proof.
  apply Forall_forall. intros k Hk. unfold kl_div in Hk.
  apply in_map_iff in Hk. destruct Hk as [pre [<- _]].
  apply torch_clamp_bounds. unfold EPS. lra.
Qed.

(** C7, as amended. For any two batches of distributions over [n] atoms,
    the KL statistic computed before clamping, from the target clamped to
    [EPS, 1] and the prediction clamped to [EPS, 1], is at least [- n * EPS]
    for every batch element, and the value produced by the clamping step lies
    in [EPS, 1 / EPS]. *)
Theorem kl_statistic_bounds (n : nat) (target_p p : list (list R)) :
  Forall (distribution n) target_p -> Forall (distribution n) p ->
  Forall (fun pre => - (INR n * EPS) <= pre)
         (kl_sum (clamp_probs target_p) (clamp_probs p)) /\
  Forall (fun k => EPS <= k <= 1 / EPS) (kl_div target_p (clamp_probs p)).
Proof.
  intros Ht Hp. split; [|apply kl_div_bounds].
  rewrite kl_sum_rows. apply Forall_forall. intros pre Hpre.
  apply in_map_iff in Hpre. destruct Hpre as [[t' p'] [<- Hin]]. simpl.
  pose proof (in_combine_l _ _ _ _ Hin) as Hl.
  pose proof (in_combine_r _ _ _ _ Hin) as Hr.
  unfold clamp_probs in Hl, Hr.
  apply in_map_iff in Hl. destruct Hl as [t [<- Hint]].
  apply in_map_iff in Hr. destruct Hr as [q [<- Hinq]].
  rewrite Forall_forall in Ht, Hp.
  apply (kl_row_clamped_lower n); auto.
Qed.

(** ** Aggregation, masking and importance weights *)

Section Aggregation.

Variables Obs Latent : Type.
Variable self : Algo Obs Latent.

Lemma getattr_prioritized_replay :
  getattr self "prioritized_replay" = Ok (prioritized_replay self).
Proof. reflexivity. Qed.

Lemma getattr_mid_batch_reset :
  getattr self "mid_batch_reset" = Ok (mid_batch_reset self).
Proof. reflexivity. Qed.

Lemma getattr_detach_model :
  getattr self "detach_model" = Ok (detach_model self).
Proof. reflexivity. Qed.

Lemma rl_loss_steps latent action return_n done_n prev_action prev_reward
  next_state next_prev_action next_prev_reward w done :
  rl_loss self latent action return_n done_n prev_action prev_reward
          next_state next_prev_action next_prev_reward w done
  = ('(losses, KL_div) <-
       rl_per_sample self latent action return_n done_n prev_action
                     prev_reward next_state next_prev_action
                     next_prev_reward w ;;
     if mid_batch_reset self then Ok (torch_mean losses, KL_div)
     else valid <- rl_valid done ;;
          Ok (valid_mean losses valid, mul KL_div valid)).
Proof.
  unfold rl_loss.
  destruct (rl_per_sample _ _ _ _ _ _ _ _ _ _ _) as [[losses KL]|e];
    [|reflexivity].
  cbn [bind]. rewrite getattr_mid_batch_reset. cbn [bind].
  destruct (mid_batch_reset self); [reflexivity|]. simpl negb. cbv iota.
  unfold rl_valid. now destruct (done_getitem done 1).
Qed.

Lemma base_loss_steps (samples : Samples Obs) :
  base_loss self samples
  = ('(losses, KL_div) <- base_per_sample self samples ;;
     if mid_batch_reset self then Ok (torch_mean losses, KL_div)
     else done_1 <- getitem (done samples) 1 ;;
          Ok (valid_mean losses (valid_mask done_1),
              mul KL_div (valid_mask done_1))).
Proof.
  unfold base_loss.
  destruct (base_per_sample self samples) as [[losses KL]|e]; [|reflexivity].
  cbn [bind]. rewrite getattr_mid_batch_reset. cbn [bind].
  destruct (mid_batch_reset self); [reflexivity|]. simpl negb. cbv iota.
  now destruct (getitem (done samples) 1).
Qed.

Lemma rl_per_sample_steps latent action return_n done_n prev_action
  prev_reward next_state next_prev_action next_prev_reward w :
  rl_per_sample self latent action return_n done_n prev_action prev_reward
                next_state next_prev_action next_prev_reward w
  = (target_p <- rl_target_p self return_n done_n next_state
                   next_prev_action next_prev_reward ;;
     p <- select_at_indexes action
            (head_forward (agent self) latent prev_action prev_reward) ;;
     Ok (if prioritized_replay self
         then imul (cross_entropy target_p (clamp_probs p)) w
         else cross_entropy target_p (clamp_probs p),
         kl_div target_p (clamp_probs p))).
Proof.
  unfold rl_per_sample.
  destruct (rl_target_p _ _ _ _ _ _) as [target_p|e]; [|reflexivity].
  cbn [bind]. destruct (select_at_indexes _ _) as [p|e]; reflexivity.
Qed.

Lemma base_per_sample_steps (samples : Samples Obs) :
  base_per_sample self samples
  = (target_p <- base_target_p self samples ;;
     p <- base_prediction self samples ;;
     Ok (if prioritized_replay self
         then mul (cross_entropy target_p (clamp_probs p))
                  (is_weights samples)
         else cross_entropy target_p (clamp_probs p),
         kl_div target_p (clamp_probs p))).
Proof.
  unfold base_per_sample, base_prediction.
  destruct (base_target_p self samples) as [target_p|e]; [|reflexivity].
  cbn [bind].
  destruct (getitem (all_observation samples) 1); [|reflexivity].
  destruct (getitem (all_action samples) 0); [|reflexivity].
  destruct (getitem (all_reward samples) 0); [|reflexivity].
  destruct (getitem (all_action samples) 1); [|reflexivity].
  cbn [bind]. destruct (select_at_indexes _ _); reflexivity.
Qed.



End Aggregation.

Section Masking.

Variables Obs Latent : Type.
Variable self : Algo Obs Latent.

Lemma masked_aggregate (done_1 : list bool) (losses KL : list R) :
  length losses = length done_1 ->
  (valid_mean losses (valid_mask done_1), mul KL (valid_mask done_1))
  = (torch_mean (restrict (valid_flags done_1) losses),
     zero_outside (valid_flags done_1) KL).
Proof.
  intros Hlen. rewrite valid_mean_restrict by assumption.
  now rewrite valid_mask_flags, mul_mask.
Qed.

(** Without [mid_batch_reset], [PizeroCategoricalDQN.loss] aggregates over
    the positions that no termination flag precedes. *)
Lemma base_loss_masked (samples : Samples Obs) (losses KL : list R)
  (done_1 : list bool) :
  mid_batch_reset self = false ->
  base_per_sample self samples = Ok (losses, KL) ->
  nth_error (done samples) 1 = Some done_1 ->
  length losses = length done_1 ->
  base_loss self samples
  = Ok (torch_mean (restrict (valid_flags done_1) losses),
        zero_outside (valid_flags done_1) KL).
Proof.
  intros Hm Hps Hd Hlen. rewrite base_loss_steps, Hps, Hm. cbn [bind].
  unfold getitem. rewrite Hd. cbn [bind].
  now rewrite masked_aggregate.
Qed.

Lemma rl_loss_masked latent action return_n done_n prev_action prev_reward
  next_state next_prev_action next_prev_reward w
  (m : list (list bool)) (losses KL : list R) (done_1 : list bool) :
  mid_batch_reset self = false ->
  rl_per_sample self latent action return_n done_n prev_action prev_reward
                next_state next_prev_action next_prev_reward w
  = Ok (losses, KL) ->
  nth_error m 1 = Some done_1 ->
  length losses = length done_1 ->
  rl_loss self latent action return_n done_n prev_action prev_reward
          next_state next_prev_action next_prev_reward w (Done2 m)
  = Ok (torch_mean (restrict (valid_flags done_1) losses),
        zero_outside (valid_flags done_1) KL).
Proof.
  intros Hm Hps Hd Hlen. rewrite rl_loss_steps, Hps, Hm. cbn [bind].
  unfold rl_valid, done_getitem, getitem. rewrite Hd. cbn [bind valid_from_done].
  now rewrite masked_aggregate.
Qed.

(** C6, as amended. With [mid_batch_reset] unset, both RL losses return the
    mean of the per-sample losses over the valid positions and the KL vector
    with the entries at the other positions set to zero, where a position is
    valid when no termination flag is set strictly before it: the position of
    the first set flag is valid, and there the KL entry keeps its clamped
    value.  With [mid_batch_reset] set they return the plain mean and the KL
    vector as it is. *)
Theorem masking_equivalence :
  (forall done t, (t < length done)%nat ->
     nth t (valid_flags done) false
     = negb (existsb (fun d => d) (firstn t done))) /\
  (forall (samples : Samples Obs) losses KL,
     base_per_sample self samples = Ok (losses, KL) ->
     (mid_batch_reset self = true ->
      base_loss self samples = Ok (torch_mean losses, KL)) /\
     (mid_batch_reset self = false ->
      forall done_1,
        nth_error (done samples) 1 = Some done_1 ->
        length losses = length done_1 -> length KL = length done_1 ->
        exists l kl,
          base_loss self samples = Ok (l, kl) /\
          l = torch_mean (restrict (valid_flags done_1) losses) /\
          forall t, (t < length done_1)%nat ->
            nth t kl 0 = if nth t (valid_flags done_1) false
                         then nth t KL 0 else 0)) /\
  (forall latent action return_n done_n prev_action prev_reward
          next_state next_prev_action next_prev_reward w losses KL,
     rl_per_sample self latent action return_n done_n prev_action
                   prev_reward next_state next_prev_action
                   next_prev_reward w = Ok (losses, KL) ->
     (mid_batch_reset self = true ->
      forall done,
        rl_loss self latent action return_n done_n prev_action prev_reward
                next_state next_prev_action next_prev_reward w done
        = Ok (torch_mean losses, KL)) /\
     (mid_batch_reset self = false ->
      forall m done_1,
        nth_error m 1 = Some done_1 ->
        length losses = length done_1 -> length KL = length done_1 ->
        exists l kl,
          rl_loss self latent action return_n done_n prev_action prev_reward
                  next_state next_prev_action next_prev_reward w (Done2 m)
          = Ok (l, kl) /\
          l = torch_mean (restrict (valid_flags done_1) losses) /\
          forall t, (t < length done_1)%nat ->
            nth t kl 0 = if nth t (valid_flags done_1) false
                         then nth t KL 0 else 0)).
Proof.
  split; [exact valid_flags_nth|]. split.
  - intros samples losses KL Hps. split.
    + intros Hm. now rewrite base_loss_steps, Hps, Hm.
    + intros Hm done_1 Hd Hl Hk.
      eexists. eexists. split; [|split].
      * apply (base_loss_masked samples losses KL done_1); assumption.
      * reflexivity.
      * intros t Ht. apply zero_outside_nth.
        unfold valid_flags. now rewrite length_valid_from.
  - intros latent action return_n done_n prev_action prev_reward
           next_state next_prev_action next_prev_reward w losses KL Hps.
    split.
    + intros Hm done. now rewrite rl_loss_steps, Hps, Hm.
    + intros Hm m done_1 Hd Hl Hk.
      eexists. eexists. split; [|split].
      * apply (rl_loss_masked _ _ _ _ _ _ _ _ _ _ m losses KL done_1);
          assumption.
      * reflexivity.
      * intros t Ht. apply zero_outside_nth.
        unfold valid_flags. now rewrite length_valid_from.
Qed.


End Masking.

(** ** The model loss: name and attribute lookups *)

Lemma lookup_to_categorical (patched : list string) :
  lookup_global patched "to_categorical" = Ok tt.
Proof. reflexivity. Qed.

Lemma lookup_F_unbound : lookup_global [] "F" = Raise (NameError "F").
Proof. reflexivity. Qed.

Lemma lookup_F_patched : lookup_global ["F"%string] "F" = Ok tt.
Proof. reflexivity. Qed.

Section ModelLoss.

Variables Obs Latent : Type.
Variable to_categorical : list R -> nat -> list (list R).
Variable self : Algo Obs Latent.

Lemma getattr_prioritize_replay_missing :
  extra_attrs self = [] ->
  getattr self "prioritize_replay" = Raise (AttributeError "prioritize_replay").
Proof. intros H. unfold getattr. rewrite H. reflexivity. Qed.

Lemma loss_steps (patched : list string) (samples : Samples Obs) :
  loss to_categorical patched self samples
  = (s0 <- loss_step0 self samples ;;
     loss_model to_categorical patched self samples s0).
Proof.
  unfold loss, loss_step0, loss_model.
  repeat match goal with
         | |- bind ?m _ = bind (bind ?m _) _ =>
             destruct m; cbn [bind]; [|reflexivity]
         end.
  match goal with
  | |- (let '(_, _) := ?a in _) = _ => destruct a as [rl KL]
  end.
  rewrite getattr_detach_model. reflexivity.
Qed.

(** C1. [PizeroModelCategoricalDQN.loss], in the module as it is written,
    never returns a triple, whatever the batch and the configuration: when
    the statements before the step-0 reward-prediction term run through, the
    call raises the NameError of the unbound name [F]. *)
Theorem loss_raises_NameError (samples : Samples Obs) :
  (forall r, loss to_categorical [] self samples <> Ok r) /\
  (forall s0, loss_step0 self samples = Ok s0 ->
              loss to_categorical [] self samples = Raise (NameError "F")).
Proof.
  assert (H : forall s0, loss_step0 self samples = Ok s0 ->
              loss to_categorical [] self samples = Raise (NameError "F")).
  { intros [[[current_latent rew_0] rl] KL] Hs0.
    rewrite loss_steps, Hs0. reflexivity. }
  split; [|exact H].
  intros r Hr. destruct (loss_step0 self samples) as [s0|e] eqn:Hs0.
  - rewrite (H s0 eq_refl) in Hr. discriminate.
  - rewrite loss_steps, Hs0 in Hr. discriminate.
Qed.

(** What one pass of the jump loop computes when it runs through: the
    importance weights handed to [rl_loss] are chosen by the attribute
    [prioritize_replay], and the reward target is built from the rewards at
    offset 0. *)
Lemma jump_steps (patched : list string) (samples : Samples Obs)
  (st st' : Latent * list R) (j : nat) :
  jump to_categorical patched self samples st j = Ok st' ->
  exists act_p act_j ret_j done_nj rew_j obs_t act_t rew_t pr done_j
         jump_rl_loss KL rew_0,
    nth_error (all_action samples) (j - 1) = Some act_p /\
    nth_error (all_action samples) j = Some act_j /\
    nth_error (return_ samples) j = Some ret_j /\
    nth_error (done_n samples) j = Some done_nj /\
    nth_error (all_reward samples) j = Some rew_j /\
    nth_error (all_observation samples) (j + n_step_return self)
    = Some obs_t /\
    nth_error (all_action samples) (j + n_step_return self - 1)
    = Some act_t /\
    nth_error (all_reward samples) (j + n_step_return self) = Some rew_t /\
    getattr self "prioritize_replay" = Ok pr /\
    nth_error (done samples) (j + 1) = Some done_j /\
    rl_loss self (fst (step (agent self) (fst st) act_p)) act_j ret_j done_nj
            act_j rew_j obs_t act_t rew_t
            (if pr then PerSample (is_weights samples) else Scalar 1)
            (Done1 done_j) = Ok (jump_rl_loss, KL) /\
    nth_error (all_reward samples) 0 = Some rew_0 /\
    lookup_global patched "F" = Ok tt /\
    st' = (fst (step (agent self) (fst st) act_p),
           sub_add (snd st)
             (sum_last (to_categorical rew_0 1)
                (log_softmax
                   (reward_predictor (agent self)
                      (fst (step (agent self) (fst st) act_p)))))
             jump_rl_loss).
Proof.
  destruct st as [current_latent model_loss]. unfold jump, getitem.
  intros H.
  destruct (nth_error (all_action samples) (j - 1)) as [act_p|];
    [|discriminate]. cbn [bind] in H.
  destruct (step (agent self) current_latent act_p) as [latent' pred] eqn:Hst.
  destruct (nth_error (all_action samples) j) as [act_j|];
    [|discriminate]. cbn [bind] in H.
  destruct (nth_error (return_ samples) j) as [ret_j|];
    [|discriminate]. cbn [bind] in H.
  destruct (nth_error (done_n samples) j) as [done_nj|];
    [|discriminate]. cbn [bind] in H.
  destruct (nth_error (all_reward samples) j) as [rew_j|];
    [|discriminate]. cbn [bind] in H.
  destruct (nth_error (all_observation samples) (j + n_step_return self))
    as [obs_t|]; [|discriminate]. cbn [bind] in H.
  destruct (nth_error (all_action samples) (j + n_step_return self - 1))
    as [act_t|]; [|discriminate]. cbn [bind] in H.
  destruct (nth_error (all_reward samples) (j + n_step_return self))
    as [rew_t|]; [|discriminate]. cbn [bind] in H.
  destruct (getattr self "prioritize_replay") as [pr|]; [|discriminate].
  cbn [bind] in H.
  destruct (nth_error (done samples) (j + 1)) as [done_j|]; [|discriminate].
  cbn [bind] in H.
  destruct (rl_loss _ _ _ _ _ _ _ _ _ _ _ _) as [[jl KL]|] eqn:Hrl;
    [|discriminate]. cbn [bind] in H.
  rewrite lookup_to_categorical in H. cbn [bind] in H.
  destruct (nth_error (all_reward samples) 0) as [rew_0|]; [|discriminate].
  cbn [bind] in H.
  destruct (lookup_global patched "F") as [[]|] eqn:HF; [|discriminate].
  cbn [bind] in H. injection H as <-.
  exists act_p, act_j, ret_j, done_nj, rew_j, obs_t, act_t, rew_t, pr,
         done_j, jl, KL, rew_0.
  cbn [fst snd]. rewrite Hst. cbn [fst].
  repeat split; try reflexivity. exact Hrl.
Qed.

End ModelLoss.

Section JumpLoop.

Variables Obs Latent : Type.
Variable to_categorical : list R -> nat -> list (list R).
Variable self : Algo Obs Latent.

(** [loss] hands [rl_loss] the [B] tensor [samples.done[1]], [rl_loss] indexes
    it once more and hands [valid_from_done] a 0-dim tensor: without
    [mid_batch_reset] the call cannot return. *)
Lemma rl_loss_done_indexed_twice latent action return_n done_n prev_action
  prev_reward next_state next_prev_action next_prev_reward w
  (done_1 : list bool) :
  mid_batch_reset self = false ->
  exists e,
    rl_loss self latent action return_n done_n prev_action prev_reward
            next_state next_prev_action next_prev_reward w (Done1 done_1)
    = Raise e.
Proof.
  intros Hm. rewrite rl_loss_steps, Hm.
  destruct (rl_per_sample _ _ _ _ _ _ _ _ _ _ _) as [[losses KL]|e];
    cbn [bind]; [|now exists e].
  unfold rl_valid, done_getitem, getitem.
  destruct (nth_error done_1 1); cbn [bind valid_from_done]; eauto.
Qed.

(** C2. A pass of the jump loop that runs through adds to [model_loss] the
    reward-prediction term whose categorical target is built from the rewards
    at offset 0 of the sample sequence, whatever the jump [j]. *)
Theorem jump_reward_target_from_offset_0 (patched : list string)
  (samples : Samples Obs) (st st' : Latent * list R) (j : nat) :
  jump to_categorical patched self samples st j = Ok st' ->
  exists rew_0 jump_rl_loss,
    nth_error (all_reward samples) 0 = Some rew_0 /\
    snd st' = sub_add (snd st)
                (sum_last (to_categorical rew_0 1)
                   (log_softmax (reward_predictor (agent self) (fst st'))))
                jump_rl_loss.
Proof.
  intros H. apply jump_steps in H.
  destruct H as (act_p & act_j & ret_j & done_nj & rew_j & obs_t & act_t &
                 rew_t & pr & done_j & jl & KL & rew_0 & _ & _ & _ & _ & _ &
                 _ & _ & _ & _ & _ & _ & Hr0 & _ & ->).
  exists rew_0, jl. split; [exact Hr0|reflexivity].
Qed.

Lemma jumps_loop_first_raises (patched : list string) (samples : Samples Obs)
  (st : Latent * list R) (j : nat) (js : list nat) :
  (forall st', jump to_categorical patched self samples st j <> Ok st') ->
  forall r, jumps_loop to_categorical patched self samples st (j :: js)
            <> Ok r.
Proof.
  intros Hj r. simpl.
  destruct (jump to_categorical patched self samples st j) as [st'|e] eqn:E.
  - now destruct (Hj st').
  - discriminate.
Qed.

(** C3. On an instance that has the attributes set by the constructors, the
    jump loop reads the attribute [prioritize_replay], which does not exist:
    a pass whose indexing succeeds raises the AttributeError, no pass runs
    through, and with a jump or more [loss] returns nothing even in a module
    where [F] is bound. *)
Theorem jump_weights_read_missing_attribute (patched : list string)
  (samples : Samples Obs) :
  extra_attrs self = [] ->
  (forall st j act_p act_j ret_j done_nj rew_j obs_t act_t rew_t,
     nth_error (all_action samples) (j - 1) = Some act_p ->
     nth_error (all_action samples) j = Some act_j ->
     nth_error (return_ samples) j = Some ret_j ->
     nth_error (done_n samples) j = Some done_nj ->
     nth_error (all_reward samples) j = Some rew_j ->
     nth_error (all_observation samples) (j + n_step_return self)
     = Some obs_t ->
     nth_error (all_action samples) (j + n_step_return self - 1)
     = Some act_t ->
     nth_error (all_reward samples) (j + n_step_return self) = Some rew_t ->
     jump to_categorical patched self samples st j
     = Raise (AttributeError "prioritize_replay")) /\
  (forall st j st',
     jump to_categorical patched self samples st j <> Ok st') /\
  ((1 <= jumps self)%nat ->
   forall r, loss to_categorical patched self samples <> Ok r).
Proof.
  intros Hextra.
  assert (Hno : forall st j st',
             jump to_categorical patched self samples st j <> Ok st').
  { intros st j st' H. apply jump_steps in H.
    destruct H as (act_p & act_j & ret_j & done_nj & rew_j & obs_t & act_t &
                   rew_t & pr & done_j & jl & KL & rew_0 & _ & _ & _ & _ &
                   _ & _ & _ & _ & Hpr & _).
    rewrite getattr_prioritize_replay_missing in Hpr by assumption.
    discriminate. }
  split; [|split; [exact Hno|]].
  - intros [current_latent model_loss] j act_p act_j ret_j done_nj rew_j
           obs_t act_t rew_t H1 H2 H3 H4 H5 H6 H7 H8.
    unfold jump, getitem. rewrite H1. cbn [bind].
    destruct (step (agent self) current_latent act_p) as [latent' pred].
    rewrite H2, H3, H4, H5, H6, H7, H8. cbn [bind].
    now rewrite getattr_prioritize_replay_missing.
  - intros Hj r. rewrite loss_steps.
    destruct (loss_step0 self samples) as [[[[latent rew_0] rl] KL]|e];
      cbn [bind]; [|discriminate].
    unfold loss_model. rewrite lookup_to_categorical. cbn [bind].
    destruct (lookup_global patched "F"); cbn [bind]; [|discriminate].
    destruct (jumps self) as [|n]; [lia|]. simpl seq.
    match goal with
    | |- bind ?m _ <> _ => destruct m as [[l ml]|e] eqn:E
    end; [|discriminate].
    exfalso. revert E. apply jumps_loop_first_raises. apply Hno.
Qed.

End JumpLoop.

(** ** The optimisation driver *)

Section Driver.

Variables Obs Latent : Type.
Variable to_categorical : list R -> nat -> list (list R).
Variables SamplerBatch BufferBatch : Type.
Variable samples_to_buffer : SamplerBatch -> BufferBatch.
Variable sample_batch : list (effect BufferBatch) -> nat -> Samples Obs.
Variable grad_norm_of : list (effect BufferBatch) -> R.
Variable self : Algo Obs Latent.

(** C10. A call of [optimize_agent] whose iteration (the sampler's when it is
    given) is below [min_itr_learn] returns an [OptInfo] with three empty
    lists; the only effect it has is the append of the converted samples to
    the replay buffer when samples were supplied, so there is no gradient
    step, no priority update and no target refresh, and the update counter
    is unchanged. *)
Theorem warm_up_returns_empty (patched : list string) (itr : nat)
  (samples : option SamplerBatch) (sampler_itr : option nat)
  (st : Driver BufferBatch) :
  (match sampler_itr with None => itr | Some s => s end
   < min_itr_learn self)%nat ->
  optimize_agent to_categorical samples_to_buffer sample_batch grad_norm_of
                 patched self itr samples sampler_itr st
  = (Ok {| opt_loss := []; gradNorm := []; tdAbsErr := [] |},
     match samples with
     | Some s =>
         {| effects := effects st ++ [AppendSamples (samples_to_buffer s)];
            update_counter := update_counter st |}
     | None => st
     end).
Proof.
  intros Hlt. apply Nat.ltb_lt in Hlt.
  unfold optimize_agent, bindM. destruct samples as [s|].
  - unfold emit. now rewrite Hlt.
  - unfold ret. now rewrite Hlt.
Qed.

End Driver.

Lemma length_kl_div (target_p p : list (list R)) :
  length (kl_div target_p p) = Nat.min (length target_p) (length p).
Proof.
  unfold kl_div, kl_sum, clamp_probs.
  now rewrite !length_map, length_combine, length_map.
Qed.

Lemma kl_div_nth_lower (target_p p : list (list R)) (t : nat) :
  (t < length target_p)%nat -> (t < length p)%nat ->
  EPS <= nth t (kl_div target_p p) 0.
Proof.
  intros Ht Hp. pose proof (kl_div_bounds target_p p) as Hb.
  rewrite Forall_forall in Hb. apply Hb. apply nth_In.
  rewrite length_kl_div. lia.
Qed.

Lemma length_project (u : list (list R)) (c : list (list (list R))) :
  length (project u c) = Nat.min (length u) (length c).
Proof. unfold project. now rewrite length_map, length_combine. Qed.

(** ** Witnesses and counterexamples *)

Lemma projection_mass_conservation_witness :
  let target_p :=
    project [one_hot 11 5] (projection_coeffs scenario_algo 2 [1] [false]) in
  length target_p = 1%nat /\
  Forall (fun row => length row = 11%nat /\
                     torch_sum row = 1 /\
                     Rabs (torch_sum row - 1) <= 1 / 100000) target_p.
Proof.
  apply (projection_mass_conservation unit unit scenario_algo 2 [1] [false]
           [one_hot 11 5]).
  - simpl. lra.
  - simpl. lia.
  - apply scenario_delta_z; reflexivity.
  - reflexivity.
  - reflexivity.
  - constructor; [|constructor]. unfold distribution. split; [reflexivity|].
    split.
    + unfold one_hot. simpl. repeat constructor; lra.
    + simpl. lra.
Defined.

Lemma end_to_end_scenario_witness :
  base_target_p scenario_algo (example_samples 1)
  = Ok [[0; 0; 0; 0; 0; 1 / 2; 1 / 2; 0; 0; 0; 0]].
Proof.
  apply (end_to_end_scenario unit unit scenario_algo eq_refl eq_refl eq_refl
           eq_refl eq_refl (example_samples 1) tt [0%nat] [1]
           [one_hot 11 5]).
  - reflexivity.
  - reflexivity.
  - reflexivity.
  - reflexivity.
  - reflexivity.
  - reflexivity.
  - discriminate.
  - constructor; [reflexivity|constructor].
  - simpl. discriminate.
Defined.


(** C6, counterexample. In a batch of three whose flags [done[1]] are set at
    position 1 only, the loss without [mid_batch_reset] is the mean over the
    positions 0 and 1, and the KL entry at position 1, the first terminal
    position, is at least [EPS]: it is not zero. *)
Lemma first_terminal_position_stays_valid :
  exists losses KL l kl,
    base_per_sample masked_algo masked_samples = Ok (losses, KL) /\
    base_loss masked_algo masked_samples = Ok (l, kl) /\
    l = torch_mean [nth 0 losses 0; nth 1 losses 0] /\
    nth 1 kl 0 <> 0.
Proof.
  eexists. eexists. eexists. eexists.
  split; [reflexivity|]. split; [reflexivity|]. split.
  - rewrite valid_mean_restrict by reflexivity. reflexivity.
  - rewrite valid_mask_flags, mul_mask.
    rewrite zero_outside_nth by (simpl; lia).
    change (nth 1 (valid_flags [false; true; false]) false) with true.
    cbv iota.
    assert (EPS <= nth 1
              (kl_div
                 (project [[1; 0]; [1; 0]; [1; 0]]
                    (projection_coeffs masked_algo
                       ((V_max masked_algo - V_min masked_algo) /
                        (INR (n_atoms (agent masked_algo)) - 1))
                       [1; 1; 1] [false; false; false]))
                 (clamp_probs [[1; 0]; [1; 0]; [1; 0]])) 0) as Hk.
    { apply kl_div_nth_lower.
      - rewrite length_project, length_projection_coeffs. simpl. lia.
      - simpl. lia. }
    pose proof EPS_pos. lra.
Qed.

Lemma masking_equivalence_witness :
  exists losses KL l kl,
    base_per_sample masked_algo masked_samples = Ok (losses, KL) /\
    base_loss masked_algo masked_samples = Ok (l, kl) /\
    l = torch_mean (restrict (valid_flags [false; true; false]) losses) /\
    forall t, (t < 3)%nat ->
      nth t kl 0 = if nth t (valid_flags [false; true; false]) false
                   then nth t KL 0 else 0.
Proof.
  assert (H : exists losses KL,
             base_per_sample masked_algo masked_samples = Ok (losses, KL) /\
             length losses = 3%nat /\ length KL = 3%nat).
  { eexists. eexists. split; [reflexivity|]. split.
    - reflexivity.
    - rewrite length_kl_div, length_project, length_projection_coeffs.
      reflexivity. }
  destruct H as [losses [KL [Hps [Hl Hk]]]].
  destruct (proj1 (proj2 (masking_equivalence unit unit masked_algo))
              masked_samples losses KL Hps) as [_ Hmasked].
  destruct (Hmasked eq_refl [false; true; false] eq_refl Hl Hk)
    as [l [kl [Hloss [Hmean Hkl]]]].
  exists losses, KL, l, kl. repeat split; assumption.
Defined.

(** C7, counterexample. For the target distribution [1 - EPS, EPS] and the
    predicted distribution [1, 0], the KL statistic computed before the
    clamping step is [(1 - EPS) * ln (1 - EPS)], a negative number. *)
Lemma kl_before_clamp_negative :
  distribution 2 [1 - EPS; EPS] /\ distribution 2 [1; 0] /\
  exists pre,
    kl_sum (clamp_probs [[1 - EPS; EPS]]) (clamp_probs [[1; 0]]) = [pre] /\
    pre < 0.
Proof.
  pose proof EPS_pos as Hpos.
  assert (Hlt : EPS < 1 / 2) by (unfold EPS; lra).
  split; [|split].
  - unfold distribution. split; [reflexivity|]. split.
    + repeat constructor; lra.
    + simpl. lra.
  - unfold distribution. split; [reflexivity|]. split.
    + repeat constructor; lra.
    + simpl. lra.
  - eexists. split; [reflexivity|].
    cbn [clamp_probs map combine fst snd mul torch_sum].
    rewrite (torch_clamp_id (1 - EPS)) by lra.
    rewrite (torch_clamp_id EPS) by lra.
    rewrite (torch_clamp_id 1) by lra.
    rewrite (torch_clamp_low 0) by lra.
    rewrite ln_1.
    assert (Hln : ln (1 - EPS) < 0).
    { rewrite <- ln_1. apply ln_increasing; lra. }
    assert (Hprod : (1 - EPS) * ln (1 - EPS) < 0).
    { replace 0 with ((1 - EPS) * 0) by lra.
      apply Rmult_lt_compat_l; lra. }
    lra.
Qed.

Lemma kl_statistic_bounds_witness :
  Forall (fun pre => - (INR 2 * EPS) <= pre)
         (kl_sum (clamp_probs [[1 - EPS; EPS]]) (clamp_probs [[1; 0]])) /\
  Forall (fun k => EPS <= k <= 1 / EPS)
         (kl_div [[1 - EPS; EPS]] (clamp_probs [[1; 0]])).
Proof.
  apply (kl_statistic_bounds 2 [[1 - EPS; EPS]] [[1; 0]]).
  - constructor; [|constructor]. unfold distribution, EPS.
    split; [reflexivity|]. split.
    + repeat constructor; lra.
    + simpl. lra.
  - constructor; [|constructor]. unfold distribution.
    split; [reflexivity|]. split.
    + repeat constructor; lra.
    + simpl. lra.
Defined.


Lemma loss_raises_NameError_witness :
  loss to_categorical_spec [] (small_algo []) (example_samples 1)
  = Raise (NameError "F").
Proof.
  assert (H : exists s0,
             loss_step0 (small_algo []) (example_samples 1) = Ok s0)
    by (eexists; reflexivity).
  destruct H as [s0 H].
  exact (proj2 (loss_raises_NameError unit unit to_categorical_spec
                  (small_algo []) (example_samples 1)) s0 H).
Defined.

Lemma jump_reward_target_witness :
  exists st' rew_0 jump_rl_loss,
    jump to_categorical_spec ["F"%string] patched_algo (example_samples 1)
         (tt, [0]) 1 = Ok st' /\
    nth_error (all_reward (example_samples 1)) 0 = Some rew_0 /\
    snd st' = sub_add [0]
                (sum_last (to_categorical_spec rew_0 1)
                   (log_softmax
                      (reward_predictor (agent patched_algo) (fst st'))))
                jump_rl_loss.
Proof.
  assert (H : exists st',
             jump to_categorical_spec ["F"%string] patched_algo
                  (example_samples 1) (tt, [0]) 1 = Ok st')
    by (eexists; reflexivity).
  destruct H as [st' H].
  destruct (jump_reward_target_from_offset_0 unit unit to_categorical_spec
              patched_algo ["F"%string] (example_samples 1) (tt, [0]) st' 1 H)
    as [rew_0 [jl [Hr Hs]]].
  exists st', rew_0, jl. repeat split; assumption.
Defined.

(** The pass of the jump loop for [j = 1] gives the same result whether the
    reward at offset 1 is 1 or 0. *)
Lemma jump_ignores_reward_at_offset_1 :
  jump to_categorical_spec ["F"%string] patched_algo (example_samples 1)
       (tt, [0]) 1
  = jump to_categorical_spec ["F"%string] patched_algo (example_samples 0)
         (tt, [0]) 1.
Proof. reflexivity. Qed.

Lemma jump_weights_witness :
  jump to_categorical_spec ["F"%string] constructed_algo (example_samples 1)
       (tt, [0]) 1
  = Raise (AttributeError "prioritize_replay") /\
  forall r, loss to_categorical_spec ["F"%string] constructed_algo
                 (example_samples 1) <> Ok r.
Proof.
  destruct (jump_weights_read_missing_attribute unit unit to_categorical_spec
              constructed_algo ["F"%string] (example_samples 1) eq_refl)
    as [Hraise [_ Hloss]].
  split.
  - apply (Hraise (tt, [0]) 1%nat [0%nat] [0%nat] [1] [false] [1] tt
             [0%nat] [0]); reflexivity.
  - apply Hloss. simpl. lia.
Defined.

Lemma warm_up_witness :
  optimize_agent to_categorical_spec (fun s : nat => s)
                 (fun _ _ => example_samples 1) (fun _ => 0)
                 [] (small_algo []) 3 (Some 7%nat) None
                 {| effects := []; update_counter := 0 |}
  = (Ok {| opt_loss := []; gradNorm := []; tdAbsErr := [] |},
     {| effects := [AppendSamples 7%nat]; update_counter := 0 |}).
Proof.
  apply (warm_up_returns_empty unit unit to_categorical_spec nat nat
           (fun s : nat => s) (fun _ _ => example_samples 1) (fun _ => 0)
           (small_algo []) [] 3 (Some 7%nat) None
           {| effects := []; update_counter := 0 |}).
  simpl. lia.
Defined.

(** * Further properties of the projection *)

Lemma nth_error_combine {A B : Type} (l : list A) (l' : list B) (n : nat) :
  nth_error (combine l l') n
  = match nth_error l n, nth_error l' n with
    | Some a, Some b => Some (a, b)
    | _, _ => None
    end.
Proof.
  revert l' n. induction l as [|a l IH]; intros [|b l'] [|n]; simpl;
    try reflexivity.
  - now destruct (nth_error l n).
  - apply IH.
Qed.

Section ProjectionRows.

Variables Obs Latent : Type.
Variable self : Algo Obs Latent.

(** The projected target, one batch element at a time. *)
Lemma project_nth_error (dz : R) (return_n : list R) (done_n : list bool)
  (target_p_unproj : list (list R)) (b : nat) :
  nth_error (project target_p_unproj
               (projection_coeffs self dz return_n done_n)) b
  = match nth_error target_p_unproj b, nth_error return_n b,
          nth_error done_n b with
    | Some u, Some r, Some d => Some (projected_row self dz u r d)
    | _, _, _ => None
    end.
Proof.
  unfold project, projection_coeffs, shifted_support, torch_ger.
  rewrite nth_error_map, nth_error_combine, !nth_error_map,
    nth_error_combine, !nth_error_map.
  destruct (nth_error target_p_unproj b) as [u|]; [|reflexivity].
  destruct (nth_error return_n b) as [r|]; [|reflexivity].
  destruct (nth_error done_n b) as [d|]; [|reflexivity].
  simpl. unfold projected_row, shifted_row, kernel.
  now rewrite map_map.
Qed.

End ProjectionRows.

Lemma Forall_of_nth_error {A : Type} (P : A -> Prop) (l : list A) :
  (forall b x, nth_error l b = Some x -> P x) -> Forall P l.
Proof.
  intros H. apply Forall_forall. intros x Hx.
  apply In_nth_error in Hx. destruct Hx as [b Hb]. now apply (H b).
Qed.

Lemma weighted_sum_bounds (u ks : list R) :
  Forall (fun x => 0 <= x) u -> Forall (fun k => 0 <= k <= 1) ks ->
  0 <= torch_sum (mul u ks) <= torch_sum u.
Proof.
  intros Hu. revert ks. induction Hu as [|x u Hx Hu IH]; intros ks Hks.
  - simpl. lra.
  - destruct ks as [|k ks]; simpl.
    + destruct (nonnegative_sum u Hu). lra.
    + inversion Hks; subst. specialize (IH ks H2). nra.
Qed.

Lemma torch_sum_mul_constant (k : R) (xs : list R) (u : list R) :
  length u = length xs ->
  torch_sum (mul u (map (fun _ => k) xs)) = k * torch_sum u.
Proof.
  revert u. induction xs as [|x xs IH]; intros [|a u] Hlen; simpl in *;
    try lia; try lra.
  rewrite IH by lia. lra.
Qed.

Lemma torch_sum_mul_comm (u v : list R) :
  torch_sum (mul u v) = torch_sum (mul v u).
Proof.
  revert v. induction u as [|x u IH]; intros [|y v]; simpl; try reflexivity.
  rewrite IH. lra.
Qed.

Lemma map_nth_seq (u : list R) :
  map (fun i => nth i u 0) (seq 0 (length u)) = u.
Proof.
  induction u as [|x u IH]; [reflexivity|].
  simpl. f_equal. rewrite <- seq_shift, map_map. exact IH.
Qed.

(** On a grid of step [dz], an atom that sits on a point of the grid gives
    its whole weight to that point. *)
Lemma kernel_on_grid (a dz : R) (i j : nat) :
  0 < dz ->
  kernel dz (a + INR j * dz) (a + INR i * dz)
  = if Nat.eqb j i then 1 else 0.
Proof.
  intros Hdz. unfold kernel. destruct (Nat.eqb_spec j i) as [->|Hne].
  - replace (a + INR i * dz - (a + INR i * dz)) with 0 by lra.
    rewrite Rabs_R0. unfold Rdiv. rewrite Rmult_0_l.
    replace (1 - 0) with 1 by lra.
    apply torch_clamp_id. lra.
  - apply kernel_far; [assumption|].
    destruct (Nat.lt_ge_cases j i) as [Hlt|Hge].
    + right. apply le_INR in Hlt. rewrite S_INR in Hlt. nra.
    + left. assert (Hlt : (S i <= j)%nat) by lia.
      apply le_INR in Hlt. rewrite S_INR in Hlt. nra.
Qed.

Section ProjectionCases.

Variables Obs Latent : Type.
Variable self : Algo Obs Latent.
Variable dz : R.
Hypothesis Hrange : V_min self < V_max self.
Hypothesis Hatoms : (2 <= n_atoms (agent self))%nat.
Hypothesis Hdz : delta_z self = Ok dz.

Lemma delta_z_value :
  dz = (V_max self - V_min self) / (INR (n_atoms (agent self)) - 1) /\
  0 < dz.
Proof.
  unfold delta_z in Hdz.
  destruct (Nat.eqb_spec (n_atoms (agent self)) 1) as [E|_]; [lia|].
  injection Hdz as <-. split; [reflexivity|].
  assert (1 <= INR (n_atoms (agent self)) - 1).
  { apply le_INR in Hatoms. simpl in Hatoms. lra. }
  apply Rdiv_lt_0_compat; lra.
Qed.

Lemma support_grid :
  support self
  = map (fun i => V_min self + INR i * dz) (seq 0 (n_atoms (agent self))).
Proof.
  destruct delta_z_value as [-> _]. reflexivity.
Qed.

Lemma support_top :
  V_min self + INR (n_atoms (agent self) - 1) * dz = V_max self.
Proof.
  destruct delta_z_value as [-> _].
  rewrite minus_INR by lia. simpl INR.
  assert (1 <= INR (n_atoms (agent self)) - 1).
  { apply le_INR in Hatoms. simpl in Hatoms. lra. }
  field. lra.
Qed.

Lemma support_in_range (z : R) :
  In z (support self) -> V_min self <= z <= V_max self.
Proof.
  rewrite support_grid. intros Hin. apply in_map_iff in Hin.
  destruct Hin as [i [<- Hi]]. apply in_seq in Hi.
  destruct delta_z_value as [_ Hpos].
  rewrite <- support_top. split.
  - pose proof (pos_INR i). nra.
  - assert (Hle : (i <= n_atoms (agent self) - 1)%nat) by lia.
    apply le_INR in Hle. nra.
Qed.

(** The kernel of a point of the grid, along the support, is a one-hot
    row. *)
Lemma kernel_row_on_grid (k : nat) :
  map (fun zi => kernel dz (V_min self + INR k * dz) zi) (support self)
  = one_hot (n_atoms (agent self)) k.
Proof.
  destruct delta_z_value as [_ Hpos].
  rewrite support_grid, map_map. unfold one_hot.
  apply map_ext. intros i. rewrite kernel_on_grid by assumption.
  now rewrite Nat.eqb_sym.
Qed.

(** When every shifted atom is the same point [c], the projected row is the
    kernel of [c] along the support, whatever the distribution [u]. *)
Lemma projected_row_constant (u : list R) (r c : R) (d : bool) :
  length u = n_atoms (agent self) -> torch_sum u = 1 ->
  (forall x, In x (shifted_row self r d) -> x = c) ->
  projected_row self dz u r d
  = map (fun zi => kernel dz c zi) (support self).
Proof.
  intros Hlen Hsum Hc. unfold projected_row. apply map_ext. intros zi.
  rewrite (map_ext_in _ (fun _ => kernel dz c zi)).
  - rewrite torch_sum_mul_constant.
    + rewrite Hsum. lra.
    + unfold shifted_row. now rewrite !length_map, length_support.
  - intros x Hx. now rewrite (Hc x Hx).
Qed.

Lemma shifted_row_terminal (r : R) (x : R) :
  In x (shifted_row self r true) ->
  x = torch_clamp r (V_min self) (V_max self).
Proof.
  unfold shifted_row. rewrite !map_map. intros Hin.
  apply in_map_iff in Hin. destruct Hin as [z [<- _]].
  f_equal. simpl. lra.
Qed.

End ProjectionCases.

Section ProjectionExtras.

Variables Obs Latent : Type.
Variable self : Algo Obs Latent.


(** X2. For a batch element whose n-step segment terminated, the projected
    target is the kernel of the clamped return along the support: it does not
    depend on the distribution the target network gives. *)
Theorem terminal_target_ignores_network (dz : R) (return_n : list R)
  (done_n : list bool) (target_p_unproj : list (list R)) (b : nat)
  (u : list R) (r : R) :
  nth_error target_p_unproj b = Some u ->
  nth_error return_n b = Some r ->
  nth_error done_n b = Some true ->
  length u = n_atoms (agent self) -> torch_sum u = 1 ->
  nth_error (project target_p_unproj
               (projection_coeffs self dz return_n done_n)) b
  = Some (map (fun zi =>
                 kernel dz (torch_clamp r (V_min self) (V_max self)) zi)
              (support self)).
Proof.
  intros Hu Hr Hd Hlen Hsum.
  rewrite project_nth_error, Hu, Hr, Hd. f_equal.
  apply projected_row_constant; try assumption.
  apply shifted_row_terminal.
Qed.

Hypothesis Hrange : V_min self < V_max self.
Hypothesis Hatoms : (2 <= n_atoms (agent self))%nat.

(** X3. A return that drives every shifted atom to [V_max] or above puts the
    whole mass of the projected target on the last atom, and one that drives
    every shifted atom to [V_min] or below puts it on the first atom. *)
Theorem saturated_return_hits_boundary_atom (dz : R) (return_n : list R)
  (done_n : list bool) (target_p_unproj : list (list R)) (b : nat)
  (u : list R) (r : R) (d : bool) :
  delta_z self = Ok dz ->
  nth_error target_p_unproj b = Some u ->
  nth_error return_n b = Some r ->
  nth_error done_n b = Some d ->
  length u = n_atoms (agent self) -> torch_sum u = 1 ->
  ((forall z, In z (support self) ->
      V_max self
      <= r + (1 - float d) * (z * discount self ^ n_step_return self)) ->
   nth_error (project target_p_unproj
                (projection_coeffs self dz return_n done_n)) b
   = Some (one_hot (n_atoms (agent self)) (n_atoms (agent self) - 1))) /\
  ((forall z, In z (support self) ->
      r + (1 - float d) * (z * discount self ^ n_step_return self)
      <= V_min self) ->
   nth_error (project target_p_unproj
                (projection_coeffs self dz return_n done_n)) b
   = Some (one_hot (n_atoms (agent self)) 0)).
Proof.
  intros Hdz Hu Hr Hd Hlen Hsum. split; intros Hsat.
  - rewrite project_nth_error, Hu, Hr, Hd. f_equal.
    rewrite <- (kernel_row_on_grid Obs Latent self dz Hrange Hatoms Hdz).
    rewrite (support_top Obs Latent self dz Hrange Hatoms Hdz).
    apply projected_row_constant; try assumption.
    unfold shifted_row. rewrite !map_map. intros x Hx.
    apply in_map_iff in Hx. destruct Hx as [z [<- Hz]].
    apply torch_clamp_high; [|lra]. now apply Hsat.
  - rewrite project_nth_error, Hu, Hr, Hd. f_equal.
    rewrite <- (kernel_row_on_grid Obs Latent self dz Hrange Hatoms Hdz).
    simpl INR. rewrite Rmult_0_l, Rplus_0_r.
    apply projected_row_constant; try assumption.
    unfold shifted_row. rewrite !map_map. intros x Hx.
    apply in_map_iff in Hx. destruct Hx as [z [<- Hz]].
    apply torch_clamp_low; [|lra]. now apply Hsat.
Qed.

(** X4. With no contraction ([discount ^ n_step_return = 1]), a zero return
    and no termination, the projection gives back the distribution it is
    given. *)
Theorem projection_identity (dz : R) (return_n : list R)
  (done_n : list bool) (target_p_unproj : list (list R)) (b : nat)
  (u : list R) :
  delta_z self = Ok dz ->
  discount self ^ n_step_return self = 1 ->
  nth_error target_p_unproj b = Some u ->
  nth_error return_n b = Some 0 ->
  nth_error done_n b = Some false ->
  length u = n_atoms (agent self) ->
  nth_error (project target_p_unproj
               (projection_coeffs self dz return_n done_n)) b
  = Some u.
Proof.
  intros Hdz Hdisc Hu Hr Hd Hlen.
  rewrite project_nth_error, Hu, Hr, Hd. f_equal.
  destruct (delta_z_value Obs Latent self dz Hrange Hatoms Hdz) as [_ Hpos].
  assert (Hshift : shifted_row self 0 false = support self).
  { unfold shifted_row. rewrite !map_map, Hdisc.
    rewrite <- (map_id (support self)) at 2.
    apply map_ext_in. intros z Hz.
    apply (support_in_range Obs Latent self dz Hrange Hatoms Hdz) in Hz.
    simpl float. rewrite torch_clamp_id; lra. }
  unfold projected_row. rewrite Hshift.
  rewrite (support_grid Obs Latent self dz Hrange Hatoms Hdz) at 1.
  rewrite map_map.
  rewrite (map_ext_in _ (fun i => nth i u 0)).
  - rewrite <- Hlen. apply map_nth_seq.
  - intros i Hi. apply in_seq in Hi.
    rewrite (map_ext _ (fun zj =>
               kernel dz (V_min self + INR i * dz) zj)).
    + rewrite (kernel_row_on_grid Obs Latent self dz Hrange Hatoms Hdz).
      rewrite torch_sum_mul_comm. apply torch_sum_mul_one_hot. lia.
    + intros zj. unfold kernel. f_equal. f_equal. f_equal.
      rewrite <- Rabs_Ropp. f_equal. lra.
Qed.

End ProjectionExtras.

(** * Further properties of the losses *)

Lemma ln_le_mono (x y : R) : 0 < x -> x <= y -> ln x <= ln y.
Proof.
  intros Hx Hle. destruct Hle as [Hlt|Heq].
  - left. now apply ln_increasing.
  - rewrite Heq. lra.
Qed.

Lemma ln_EPS_negative : ln EPS < 0.
Proof.
  rewrite <- ln_1. apply ln_increasing; [apply EPS_pos|unfold EPS; lra].
Qed.

(** The cross-entropy of one batch element against a clamped prediction. *)
Lemma cross_entropy_row_bounds (t p : list R) :
  Forall (fun x => 0 <= x) t ->
  0 <= - torch_sum (mul t (map ln (clamp_row p))) <= - ln EPS * torch_sum t.
Proof.
  intros Ht. revert p. induction Ht as [|x t Hx Ht IH]; intros p.
  - simpl. lra.
  - destruct p as [|q p].
    + simpl. destruct (nonnegative_sum t Ht) as [Hs _].
      pose proof ln_EPS_negative. nra.
    + unfold clamp_row. cbn [map mul torch_sum].
      specialize (IH p). unfold clamp_row in IH.
      pose proof (torch_clamp_bounds q EPS 1) as Hq.
      assert (HE : EPS <= 1) by (unfold EPS; lra). specialize (Hq HE).
      pose proof EPS_pos as Hpos.
      assert (Hlo : ln EPS <= ln (torch_clamp q EPS 1))
        by (apply ln_le_mono; lra).
      assert (Hhi : ln (torch_clamp q EPS 1) <= 0)
        by (rewrite <- ln_1; apply ln_le_mono; lra).
      nra.
Qed.

(** X5. The NaN-guard bounds the per-sample losses: against a batch of target
    distributions, the cross-entropy of every batch element lies between 0
    and [ln (1 / EPS)], whatever the predicted values are. *)
Theorem cross_entropy_bounded (target_p p : list (list R)) :
  Forall (fun t => Forall (fun x => 0 <= x) t /\ torch_sum t = 1) target_p ->
  Forall (fun l => 0 <= l <= ln (1 / EPS))
         (cross_entropy target_p (clamp_probs p)).
Proof.
  intros Ht. apply Forall_forall. intros l Hl. unfold cross_entropy in Hl.
  apply in_map_iff in Hl. destruct Hl as [[t q] [<- Hin]]. simpl.
  pose proof (in_combine_l _ _ _ _ Hin) as Hl.
  pose proof (in_combine_r _ _ _ _ Hin) as Hr.
  unfold clamp_probs in Hr. apply in_map_iff in Hr.
  destruct Hr as [q0 [<- _]].
  rewrite Forall_forall in Ht. destruct (Ht t Hl) as [Hnn Hsum].
  pose proof (cross_entropy_row_bounds t q0 Hnn) as Hb.
  unfold clamp_row in Hb. rewrite Hsum in Hb.
  unfold Rdiv. rewrite Rmult_1_l, ln_Rinv by apply EPS_pos. lra.
Qed.


Section ReturnedKL.

Variables Obs Latent : Type.
Variable self : Algo Obs Latent.




End ReturnedKL.

(** [log_softmax] gives nonpositive values. *)
Lemma exp_le_sum (x : list R) (a : R) :
  In a x -> exp a <= torch_sum (map exp x).
Proof.
  assert (Hpos : forall l, 0 <= torch_sum (map exp l)).
  { induction l as [|y l IH]; simpl; [lra|].
    pose proof (exp_pos y). lra. }
  induction x as [|y x IH]; intros Hin; [contradiction|].
  simpl. destruct Hin as [->|Hin].
  - specialize (Hpos x). lra.
  - specialize (IH Hin). pose proof (exp_pos y). lra.
Qed.

Lemma log_softmax_row_nonpositive (x : list R) :
  Forall (fun l => l <= 0) (log_softmax_row x).
Proof.
  apply Forall_forall. intros l Hl. unfold log_softmax_row in Hl.
  apply in_map_iff in Hl. destruct Hl as [a [<- Ha]].
  pose proof (exp_le_sum x a Ha) as Hle.
  assert (a <= ln (torch_sum (map exp x))); [|lra].
  rewrite <- (ln_exp a) at 1. apply ln_le_mono; [apply exp_pos|exact Hle].
Qed.

Lemma nonneg_times_nonpos (t l : list R) :
  Forall (fun x => 0 <= x) t -> Forall (fun x => x <= 0) l ->
  torch_sum (mul t l) <= 0.
Proof.
  intros Ht. revert l. induction Ht as [|x t Hx Ht IH]; intros l Hl.
  - simpl. lra.
  - destruct l as [|y l]; simpl; [lra|].
    inversion Hl; subst. specialize (IH l H2). nra.
Qed.

(** X7. The reward-prediction term of the model loss,
    [-sum(reward_target * log_softmax(pred_rew), -1)], is nonnegative for
    every batch element when the categorical reward targets are
    nonnegative. *)
Theorem reward_loss_nonnegative (reward_target pred_rew : list (list R)) :
  Forall (Forall (fun x => 0 <= x)) reward_target ->
  Forall (fun l => 0 <= l)
         (map Ropp (sum_last reward_target (log_softmax pred_rew))).
Proof.
  intros Ht. apply Forall_forall. intros l Hl.
  apply in_map_iff in Hl. destruct Hl as [s [<- Hs]].
  unfold sum_last in Hs. apply in_map_iff in Hs.
  destruct Hs as [[t q] [<- Hin]]. simpl.
  pose proof (in_combine_l _ _ _ _ Hin) as Hl.
  pose proof (in_combine_r _ _ _ _ Hin) as Hr.
  unfold log_softmax in Hr. apply in_map_iff in Hr.
  destruct Hr as [x [<- _]].
  rewrite Forall_forall in Ht.
  pose proof (nonneg_times_nonpos t (log_softmax_row x) (Ht t Hl)
                (log_softmax_row_nonpositive x)).
  lra.
Qed.

(** * Which batches the losses accept *)

Lemma getitem_Ok {A : Type} (xs : list A) (i : nat) (x : A) :
  getitem xs i = Ok x -> (i < length xs)%nat.
Proof.
  unfold getitem. destruct (nth_error xs i) eqn:E; [|discriminate].
  intros _. apply nth_error_Some. congruence.
Qed.




Section Acceptance.

Variables Obs Latent : Type.
Variable self : Algo Obs Latent.


(** X9. [PizeroCategoricalDQN.loss] returns nothing on a batch that lacks one
    of the offsets it reads, or on a support of exactly one atom: when it
    returns, the batch holds the observations up to offset
    [n_step_return + 1], the actions and the rewards up to offset
    [n_step_return], the actions, returns and n-step flags at offset 1 and,
    without [mid_batch_reset], the flags at offset 1. *)
Theorem base_loss_needs_offsets (samples : Samples Obs) (r : R * list R) :
  base_loss self samples = Ok r ->
  n_atoms (agent self) <> 1%nat /\
  (n_step_return self + 1 < length (all_observation samples))%nat /\
  (1 < length (all_action samples))%nat /\
  (n_step_return self < length (all_action samples))%nat /\
  (n_step_return self < length (all_reward samples))%nat /\
  (1 < length (return_ samples))%nat /\
  (1 < length (done_n samples))%nat /\
  (mid_batch_reset self = false -> (1 < length (done samples))%nat).
Proof.
  intros H. rewrite base_loss_steps, base_per_sample_steps in H.
  destruct (base_target_p self samples) as [target_p|] eqn:Ht;
    [|discriminate].
  cbn [bind] in H.
  destruct (base_prediction self samples) as [p|] eqn:Hp; [|discriminate].
  cbn [bind] in H.
  unfold base_target_p, delta_z in Ht.
  destruct (Nat.eqb_spec (n_atoms (agent self)) 1) as [|Hn]; [discriminate|].
  cbn [bind] in Ht.
  destruct (getitem (done_n samples) 1) eqn:E1; [|discriminate].
  cbn [bind] in Ht.
  destruct (getitem (return_ samples) 1) eqn:E2; [|discriminate].
  cbn [bind] in Ht.
  destruct (getitem (all_observation samples) (n_step_return self + 1))
    eqn:E3; [|discriminate].
  cbn [bind] in Ht.
  destruct (getitem (all_action samples) (n_step_return self)) eqn:E4;
    [|discriminate].
  cbn [bind] in Ht.
  destruct (getitem (all_reward samples) (n_step_return self)) eqn:E5;
    [|discriminate].
  clear Ht. unfold base_prediction in Hp.
  destruct (getitem (all_observation samples) 1); [|discriminate].
  cbn [bind] in Hp.
  destruct (getitem (all_action samples) 0); [|discriminate].
  cbn [bind] in Hp.
  destruct (getitem (all_reward samples) 0); [|discriminate].
  cbn [bind] in Hp.
  destruct (getitem (all_action samples) 1) eqn:E6; [|discriminate].
  apply getitem_Ok in E1, E2, E3, E4, E5, E6.
  repeat split; try assumption.
  intros Hm. rewrite Hm in H.
  destruct (getitem (done samples) 1) eqn:E7; [|discriminate].
  now apply getitem_Ok in E7.
Qed.

End Acceptance.

Section TwoCopies.

Variables Obs Latent : Type.
Variable self : Algo Obs Latent.

(** X10. The two copies of the categorical loss agree: on a batch that holds
    the offsets the base loss reads, [rl_loss] called with the batch's
    tensors at those offsets, the whole [T,B] tensor of flags and a latent on
    which the Q-head gives what the live network gives on the observation
    returns exactly what [PizeroCategoricalDQN.loss] returns, errors
    included. *)
Theorem rl_loss_matches_base_loss (samples : Samples Obs) (latent : Latent)
  (done_n1 : list bool) (return_1 : list R) (obs_n obs_1 : Obs)
  (act_n act_0 act_1 : list nat) (rew_n rew_0 : list R) :
  nth_error (done_n samples) 1 = Some done_n1 ->
  nth_error (return_ samples) 1 = Some return_1 ->
  nth_error (all_observation samples) (n_step_return self + 1)
  = Some obs_n ->
  nth_error (all_action samples) (n_step_return self) = Some act_n ->
  nth_error (all_reward samples) (n_step_return self) = Some rew_n ->
  nth_error (all_observation samples) 1 = Some obs_1 ->
  nth_error (all_action samples) 0 = Some act_0 ->
  nth_error (all_reward samples) 0 = Some rew_0 ->
  nth_error (all_action samples) 1 = Some act_1 ->
  head_forward (agent self) latent act_0 rew_0
  = forward (agent self) obs_1 act_0 rew_0 ->
  rl_loss self latent act_1 return_1 done_n1 act_0 rew_0 obs_n act_n rew_n
          (PerSample (is_weights samples)) (Done2 (done samples))
  = base_loss self samples.
Proof.
  intros Hdn Hret Hobs Hact Hrew Ho1 Ha0 Hr0 Ha1 Hhead.
  rewrite rl_loss_steps, rl_per_sample_steps.
  rewrite base_loss_steps, base_per_sample_steps.
  assert (Ht : rl_target_p self return_1 done_n1 obs_n act_n rew_n
               = base_target_p self samples).
  { unfold rl_target_p, base_target_p, getitem.
    destruct (delta_z self); [|reflexivity]. cbn [bind].
    now rewrite Hdn, Hret, Hobs, Hact, Hrew. }
  assert (Hp : select_at_indexes act_1
                 (head_forward (agent self) latent act_0 rew_0)
               = base_prediction self samples).
  { unfold base_prediction, getitem. rewrite Ho1, Ha0, Hr0, Ha1.
    cbn [bind]. now rewrite Hhead. }
  rewrite Ht, Hp.
  destruct (base_target_p self samples) as [target_p|]; [|reflexivity].
  cbn [bind].
  destruct (base_prediction self samples) as [p|]; [|reflexivity].
  cbn [bind imul].
  destruct (mid_batch_reset self); [reflexivity|].
  unfold rl_valid, done_getitem.
  destruct (getitem (done samples) 1); reflexivity.
Qed.

End TwoCopies.

Section ModelLossAcceptance.

Variables Obs Latent : Type.
Variable to_categorical : list R -> nat -> list (list R).
Variable self : Algo Obs Latent.

Lemma rl_loss_done_vector_raises latent action return_n done_n prev_action
  prev_reward next_state next_prev_action next_prev_reward w
  (done_1 : list bool) (r : R * list R) :
  mid_batch_reset self = false ->
  rl_loss self latent action return_n done_n prev_action prev_reward
          next_state next_prev_action next_prev_reward w (Done1 done_1)
  <> Ok r.
Proof.
  intros Hm H.
  destruct (rl_loss_done_indexed_twice Obs Latent self latent action
              return_n done_n prev_action prev_reward next_state
              next_prev_action next_prev_reward w done_1 Hm) as [e He].
  rewrite He in H. discriminate.
Qed.

(** X11. Without [mid_batch_reset], [PizeroModelCategoricalDQN.loss] returns
    nothing in any module namespace: it hands [rl_loss] the [B] tensor
    [samples.done[1]], which [rl_loss] indexes once more, and the validity
    mask of the 0-dim tensor cannot be taken.  When the per-sample part of
    [rl_loss] succeeds, the call on a [B] tensor of flags raises an
    IndexError. *)
Theorem loss_needs_mid_batch_reset :
  mid_batch_reset self = false ->
  (forall patched (samples : Samples Obs) r,
     loss to_categorical patched self samples <> Ok r) /\
  (forall latent action return_n done_n prev_action prev_reward
          next_state next_prev_action next_prev_reward w done_1 losses KL,
     rl_per_sample self latent action return_n done_n prev_action
                   prev_reward next_state next_prev_action
                   next_prev_reward w = Ok (losses, KL) ->
     rl_loss self latent action return_n done_n prev_action prev_reward
             next_state next_prev_action next_prev_reward w (Done1 done_1)
     = Raise IndexError).
Proof.
  intros Hm. split.
  - intros patched samples r H. rewrite loss_steps in H.
    destruct (loss_step0 self samples) as [s0|] eqn:E; [|discriminate].
    unfold loss_step0 in E.
    repeat match type of E with
           | bind (getitem ?l ?i) _ = _ =>
               destruct (getitem l i); cbn [bind] in E; [|discriminate]
           end.
    rewrite getattr_prioritized_replay in E. cbn [bind] in E.
    repeat match type of E with
           | bind (getitem ?l ?i) _ = _ =>
               destruct (getitem l i); cbn [bind] in E; [|discriminate]
           end.
    match type of E with
    | bind ?m _ = _ => destruct m as [rk|] eqn:Hrl; [|discriminate]
    end.
    revert Hrl. now apply rl_loss_done_vector_raises.
  - intros latent action return_n done_n prev_action prev_reward
           next_state next_prev_action next_prev_reward w done_1 losses KL
           Hps.
    rewrite rl_loss_steps, Hps, Hm. cbn [bind].
    unfold rl_valid, done_getitem, getitem.
    destruct (nth_error done_1 1); reflexivity.
Qed.

Lemma jumps_loop_visits (patched : list string) (samples : Samples Obs)
  (js : list nat) (st r : Latent * list R) :
  jumps_loop to_categorical patched self samples st js = Ok r ->
  forall j, In j js ->
    exists st1 st2,
      jump to_categorical patched self samples st1 j = Ok st2.
Proof.
  revert st. induction js as [|j0 js IH]; intros st H j Hj;
    [contradiction|].
  simpl in H.
  destruct (jump to_categorical patched self samples st j0) as [st'|] eqn:E;
    [|discriminate].
  cbn [bind] in H. destruct Hj as [<-|Hj].
  - now exists st, st'.
  - now apply (IH st').
Qed.

(** X12. [PizeroModelCategoricalDQN.loss] never truncates a short batch:
    when it returns, the name [F] is bound, the instance has the attribute
    [prioritize_replay] if there is a jump, and for every jump [j] from 1 to
    [jumps] the batch holds the observations and rewards at offset
    [j + n_step_return], the actions at offsets [j - 1], [j] and
    [j + n_step_return - 1], the returns and n-step flags at offset [j] and
    the flags at offset [j + 1]. *)
Theorem loss_needs_offsets (patched : list string) (samples : Samples Obs)
  (r : R * list R * list R) :
  loss to_categorical patched self samples = Ok r ->
  lookup_global patched "F" = Ok tt /\
  forall j, (1 <= j <= jumps self)%nat ->
    (exists pr, getattr self "prioritize_replay" = Ok pr) /\
    (j + n_step_return self < length (all_observation samples))%nat /\
    (j + n_step_return self < length (all_reward samples))%nat /\
    (j < length (all_action samples))%nat /\
    (j + n_step_return self - 1 < length (all_action samples))%nat /\
    (j < length (return_ samples))%nat /\
    (j < length (done_n samples))%nat /\
    (j + 1 < length (done samples))%nat.
Proof.
  intros H. rewrite loss_steps in H.
  destruct (loss_step0 self samples) as [[[[latent rew_0] rl] KL]|];
    [|discriminate].
  cbn [bind] in H. unfold loss_model in H.
  rewrite lookup_to_categorical in H. cbn [bind] in H.
  destruct (lookup_global patched "F") as [[]|] eqn:HF; [|discriminate].
  cbn [bind] in H. split; [reflexivity|].
  match type of H with
  | bind ?m _ = _ => destruct m as [st|] eqn:Hloop; [|discriminate]
  end.
  intros j Hj.
  destruct (jumps_loop_visits patched samples _ _ _ Hloop j)
    as [st1 [st2 Hjump]].
  { apply in_seq. lia. }
  apply jump_steps in Hjump.
  destruct Hjump as (act_p & act_j & ret_j & done_nj & rew_j & obs_t &
                     act_t & rew_t & pr & done_j & jl & KL' & rew_0' &
                     H1 & H2 & H3 & H4 & H5 & H6 & H7 & H8 & H9 & H10 & _).
  split; [now exists pr|].
  repeat split; apply nth_error_Some; congruence.
Qed.

End ModelLossAcceptance.

(** * Further properties of the optimisation driver *)

Section DriverExtras.

Variables Obs Latent : Type.
Variable to_categorical : list R -> nat -> list (list R).
Variables SamplerBatch BufferBatch : Type.
Variable samples_to_buffer : SamplerBatch -> BufferBatch.
Variable sample_batch : list (effect BufferBatch) -> nat -> Samples Obs.
Variable grad_norm_of : list (effect BufferBatch) -> R.
Variable self : Algo Obs Latent.

Lemma loss_unpatched_raises (samples : Samples Obs) :
  exists e, loss to_categorical [] self samples = Raise e.
Proof.
  rewrite loss_steps.
  destruct (loss_step0 self samples) as [[[[latent rew_0] rl] KL]|e].
  - exists (NameError "F"). reflexivity.
  - now exists e.
Qed.

(** X13. In the module as it is written, [optimize_agent] never changes a
    parameter.  Past the warm-up threshold, a call with no update to make
    returns the empty [OptInfo] after the hyperparameter update, and a call
    with an update to make raises the exception of [loss] right after
    drawing the first batch: in both cases the only other effect is the
    append of the supplied samples, and the update counter is unchanged. *)
Theorem optimize_agent_never_updates (itr : nat)
  (samples : option SamplerBatch) (sampler_itr : option nat)
  (st : Driver BufferBatch) :
  let itr' := match sampler_itr with None => itr | Some s => s end in
  let appended :=
    match samples with
    | Some s => effects st ++ [AppendSamples (samples_to_buffer s)]
    | None => effects st
    end in
  (min_itr_learn self <= itr')%nat ->
  (updates_per_optimize self = 0%nat ->
   optimize_agent to_categorical samples_to_buffer sample_batch
                  grad_norm_of [] self itr samples sampler_itr st
   = (Ok {| opt_loss := []; gradNorm := []; tdAbsErr := [] |},
      {| effects := appended ++ [UpdateItrHyperparams BufferBatch itr'];
         update_counter := update_counter st |})) /\
  ((1 <= updates_per_optimize self)%nat ->
   exists e,
     loss to_categorical [] self (sample_batch appended (batch_size self))
     = Raise e /\
     optimize_agent to_categorical samples_to_buffer sample_batch
                    grad_norm_of [] self itr samples sampler_itr st
     = (Raise e,
        {| effects := appended ++ [SampleBatch BufferBatch (batch_size self)];
           update_counter := update_counter st |})).
Proof.
  intros itr' appended Hge.
  assert (Hltb : Nat.ltb itr' (min_itr_learn self) = false)
    by (apply Nat.ltb_ge; exact Hge).
  split.
  - intros H0. unfold optimize_agent, bindM. fold itr'.
    destruct samples as [s|]; unfold emit, ret; rewrite Hltb, H0;
      reflexivity.
  - intros H1.
    destruct (loss_unpatched_raises
                (sample_batch appended (batch_size self))) as [e He].
    exists e. split; [exact He|].
    unfold optimize_agent, bindM. fold itr'.
    destruct (updates_per_optimize self) as [|n]; [lia|].
    destruct samples as [s|]; unfold emit, ret; rewrite Hltb;
      simpl updates; unfold bindM, update, bindM, history, emit, lift;
      cbn [effects update_counter]; unfold appended in He; rewrite He;
      reflexivity.
Qed.

(** X14. An update whose [model_loss] does not have exactly one element
    (a batch of more than one element) raises a RuntimeError at the backward
    pass that involves it.  With [detach_model] the main optimiser has
    stepped on the RL loss by then; without it no optimiser has stepped.
    Nothing is recorded and the update counter is unchanged. *)
Theorem update_needs_scalar_model_loss (patched : list string)
  (opt_info : OptInfo) (st : Driver BufferBatch)
  (l : R) (td_abs_errors model_loss : list R) :
  loss to_categorical patched self
       (sample_batch (effects st) (batch_size self))
  = Ok (l, td_abs_errors, model_loss) ->
  length model_loss <> 1%nat ->
  update to_categorical sample_batch grad_norm_of patched self opt_info st
  = (Raise RuntimeError,
     {| effects :=
          effects st ++
          SampleBatch BufferBatch (batch_size self)
          :: (if detach_model self
              then [ZeroGrad BufferBatch MainOptimizer;
                    Backward BufferBatch;
                    ClipGradNorm BufferBatch;
                    OptimizerStep BufferBatch MainOptimizer;
                    ZeroGrad BufferBatch ModelOptimizer]
              else [ZeroGrad BufferBatch MainOptimizer;
                    ZeroGrad BufferBatch ModelOptimizer]);
        update_counter := update_counter st |}).
Proof.
  intros Hloss Hlen.
  unfold update, bindM, history, emit, lift.
  cbn [effects update_counter]. rewrite Hloss.
  rewrite getattr_detach_model.
  destruct (detach_model self);
    destruct model_loss as [|m [|m' ml]]; try (simpl in Hlen; lia);
    cbn; rewrite <- ?app_assoc; reflexivity.
Qed.

(** X15. An update in detached mode on a batch of one element, with a
    nonzero target interval: the main optimiser finishes its step on the RL
    loss before the model optimiser is zeroed and steps on the model loss;
    the priorities are updated with the KL vector exactly when prioritized
    replay is on; the RL loss, the gradient norm of the first clipping and
    every 8th KL entry are recorded; the update counter grows by one and the
    target network is refreshed exactly when the new count is a multiple of
    the interval. *)
Theorem update_detached (patched : list string) (opt_info : OptInfo)
  (st : Driver BufferBatch) (l m : R) (td_abs_errors : list R) :
  loss to_categorical patched self
       (sample_batch (effects st) (batch_size self))
  = Ok (l, td_abs_errors, [m]) ->
  detach_model self = true ->
  target_update_interval self <> 0%nat ->
  update to_categorical sample_batch grad_norm_of patched self opt_info st
  = (Ok {| opt_loss := opt_loss opt_info ++ [l];
           gradNorm :=
             gradNorm opt_info
             ++ [grad_norm_of
                   (effects st ++
                    [SampleBatch BufferBatch (batch_size self);
                     ZeroGrad BufferBatch MainOptimizer;
                     Backward BufferBatch])];
           tdAbsErr := tdAbsErr opt_info ++ stride8 td_abs_errors |},
     {| effects :=
          effects st ++
          [SampleBatch BufferBatch (batch_size self);
           ZeroGrad BufferBatch MainOptimizer;
           Backward BufferBatch;
           ClipGradNorm BufferBatch;
           OptimizerStep BufferBatch MainOptimizer;
           ZeroGrad BufferBatch ModelOptimizer;
           Backward BufferBatch;
           ClipGradNorm BufferBatch;
           OptimizerStep BufferBatch ModelOptimizer] ++
          (if prioritized_replay self
           then [UpdateBatchPriorities BufferBatch td_abs_errors] else []) ++
          (if Nat.eqb (S (update_counter st) mod target_update_interval self)
                      0
           then [UpdateTarget BufferBatch (target_update_tau self)] else []);
        update_counter := S (update_counter st) |}).
Proof.
  intros Hloss Hdm Hint.
  apply Nat.eqb_neq in Hint.
  unfold update, bindM, history, emit, lift.
  cbn [effects update_counter]. rewrite Hloss.
  rewrite getattr_detach_model, Hdm, getattr_prioritized_replay.
  destruct (prioritized_replay self); cbn; rewrite Hint;
    destruct (Nat.eqb (S (update_counter st) mod target_update_interval self)
                      0);
    cbn; rewrite <- ?app_assoc; reflexivity.
Qed.

End DriverExtras.

(** * Witnesses of the further properties *)

Lemma small_delta_z : delta_z (small_algo []) = Ok 20.
Proof. unfold delta_z. simpl. f_equal. lra. Qed.


Lemma terminal_target_ignores_network_witness :
  nth_error (project [[1; 0]]
               (projection_coeffs (small_algo []) 20 [1] [true])) 0
  = Some (map (fun zi =>
                 kernel 20 (torch_clamp 1 (V_min (small_algo []))
                                        (V_max (small_algo []))) zi)
              (support (small_algo []))).
Proof.
  apply (terminal_target_ignores_network unit unit (small_algo []) 20
           [1] [true] [[1; 0]] 0 [1; 0] 1).
  - reflexivity.
  - reflexivity.
  - reflexivity.
  - reflexivity.
  - simpl. lra.
Defined.

Lemma small_range : V_min (small_algo []) < V_max (small_algo []).
Proof. simpl. lra. Qed.

Lemma small_atoms : (2 <= n_atoms (agent (small_algo [])))%nat.
Proof. simpl. lia. Qed.

Lemma saturated_return_witness :
  nth_error (project [[1; 0]]
               (projection_coeffs (small_algo []) 20 [100] [true])) 0
  = Some (one_hot 2 1).
Proof.
  apply (proj1 (saturated_return_hits_boundary_atom unit unit (small_algo [])
                  small_range small_atoms 20 [100] [true] [[1; 0]] 0
                  [1; 0] 100 true small_delta_z eq_refl eq_refl eq_refl
                  eq_refl ltac:(simpl; lra))).
  intros z _. simpl. lra.
Defined.

Lemma undiscounted_range :
  V_min undiscounted_algo < V_max undiscounted_algo.
Proof. simpl. lra. Qed.

Lemma undiscounted_atoms : (2 <= n_atoms (agent undiscounted_algo))%nat.
Proof. simpl. lia. Qed.

Lemma projection_identity_witness :
  nth_error (project [one_hot 11 5]
               (projection_coeffs undiscounted_algo 2 [0] [false])) 0
  = Some (one_hot 11 5).
Proof.
  apply (projection_identity unit unit undiscounted_algo undiscounted_range
           undiscounted_atoms 2 [0] [false] [one_hot 11 5] 0 (one_hot 11 5)).
  - apply scenario_delta_z; reflexivity.
  - simpl. lra.
  - reflexivity.
  - reflexivity.
  - reflexivity.
  - reflexivity.
Defined.

Lemma cross_entropy_bounded_witness :
  Forall (fun l => 0 <= l <= ln (1 / EPS))
         (cross_entropy [[1; 0]] (clamp_probs [[1 / 2; 1 / 2]])).
Proof.
  apply (cross_entropy_bounded [[1; 0]] [[1 / 2; 1 / 2]]).
  constructor; [|constructor]. split.
  - repeat constructor; lra.
  - simpl. lra.
Defined.


Lemma reward_loss_nonnegative_witness :
  Forall (fun l => 0 <= l)
         (map Ropp (sum_last [[0; 1; 0]] (log_softmax [[0; 0; 0]]))).
Proof.
  apply (reward_loss_nonnegative [[0; 1; 0]] [[0; 0; 0]]).
  repeat constructor; lra.
Defined.


Lemma base_loss_needs_offsets_witness :
  n_atoms (agent (small_algo [])) <> 1%nat /\
  (n_step_return (small_algo []) + 1
   < length (all_observation (example_samples 1)))%nat /\
  (1 < length (all_action (example_samples 1)))%nat /\
  (n_step_return (small_algo [])
   < length (all_action (example_samples 1)))%nat /\
  (n_step_return (small_algo [])
   < length (all_reward (example_samples 1)))%nat /\
  (1 < length (return_ (example_samples 1)))%nat /\
  (1 < length (done_n (example_samples 1)))%nat /\
  (mid_batch_reset (small_algo []) = false ->
   (1 < length (done (example_samples 1)))%nat).
Proof.
  assert (H : exists r,
             base_loss (small_algo []) (example_samples 1) = Ok r)
    by (eexists; reflexivity).
  destruct H as [r H].
  exact (base_loss_needs_offsets unit unit (small_algo [])
           (example_samples 1) r H).
Defined.

Lemma rl_loss_matches_base_loss_witness :
  rl_loss (small_algo []) tt [0%nat] [1] [false] [0%nat] [0] tt [0%nat] [1]
          (PerSample (is_weights (example_samples 1)))
          (Done2 (done (example_samples 1)))
  = base_loss (small_algo []) (example_samples 1).
Proof.
  apply (rl_loss_matches_base_loss unit unit (small_algo [])
           (example_samples 1) tt [false] [1] tt tt [0%nat] [0%nat] [0%nat]
           [1] [0]); reflexivity.
Defined.

Lemma loss_needs_mid_batch_reset_witness :
  (forall r, loss to_categorical_spec ["F"%string] masked_algo masked_samples
             <> Ok r) /\
  rl_loss masked_algo tt [0; 0; 0]%nat [1; 1; 1] [false; false; false]
          [0; 0; 0]%nat [0; 0; 0] tt [0; 0; 0]%nat [0; 0; 0] (Scalar 1)
          (Done1 [false; true; false])
  = Raise IndexError.
Proof.
  destruct (loss_needs_mid_batch_reset unit unit to_categorical_spec
              masked_algo eq_refl) as [Hloss Hrl].
  split.
  - apply Hloss.
  - assert (H : exists losses KL,
               rl_per_sample masked_algo tt [0; 0; 0]%nat [1; 1; 1]
                 [false; false; false] [0; 0; 0]%nat [0; 0; 0] tt
                 [0; 0; 0]%nat [0; 0; 0] (Scalar 1) = Ok (losses, KL))
      by (eexists; eexists; reflexivity).
    destruct H as [losses [KL H]].
    exact (Hrl tt _ _ _ _ _ tt _ _ (Scalar 1) [false; true; false]
               losses KL H).
Defined.

Lemma loss_needs_offsets_witness :
  lookup_global ["F"%string] "F" = Ok tt /\
  forall j, (1 <= j <= jumps patched_algo)%nat ->
    (exists pr, getattr patched_algo "prioritize_replay" = Ok pr) /\
    (j + n_step_return patched_algo
     < length (all_observation (example_samples 1)))%nat /\
    (j + n_step_return patched_algo
     < length (all_reward (example_samples 1)))%nat /\
    (j < length (all_action (example_samples 1)))%nat /\
    (j + n_step_return patched_algo - 1
     < length (all_action (example_samples 1)))%nat /\
    (j < length (return_ (example_samples 1)))%nat /\
    (j < length (done_n (example_samples 1)))%nat /\
    (j + 1 < length (done (example_samples 1)))%nat.
Proof.
  assert (H : exists r,
             loss to_categorical_spec ["F"%string] patched_algo
                  (example_samples 1) = Ok r)
    by (eexists; reflexivity).
  destruct H as [r H].
  exact (loss_needs_offsets unit unit to_categorical_spec patched_algo
           ["F"%string] (example_samples 1) r H).
Defined.

Lemma optimize_agent_never_updates_witness :
  exists e,
    loss to_categorical_spec [] (small_algo []) (example_samples 1)
    = Raise e /\
    optimize_agent to_categorical_spec (fun s : nat => s)
                   (fun _ _ => example_samples 1) (fun _ => 0)
                   [] (small_algo []) 20 None None
                   {| effects := []; update_counter := 0 |}
    = (Raise e,
       {| effects := [SampleBatch nat 1]; update_counter := 0 |}).
Proof.
  apply (proj2 (optimize_agent_never_updates unit unit to_categorical_spec
                  nat nat (fun s : nat => s) (fun _ _ => example_samples 1)
                  (fun _ => 0) (small_algo []) 20 None None
                  {| effects := []; update_counter := 0 |}
                  ltac:(simpl; lia))).
  simpl. lia.
Defined.

Lemma update_needs_scalar_model_loss_witness :
  update to_categorical_spec (fun _ _ => pair_samples) (fun _ => 0)
         ["F"%string] pair_algo
         {| opt_loss := []; gradNorm := []; tdAbsErr := [] |}
         {| effects := @nil (effect nat); update_counter := 0 |}
  = (Raise RuntimeError,
     {| effects :=
          [SampleBatch nat 1; ZeroGrad nat MainOptimizer; Backward nat;
           ClipGradNorm nat; OptimizerStep nat MainOptimizer;
           ZeroGrad nat ModelOptimizer];
        update_counter := 0 |}).
Proof.
  assert (H : exists l td ml,
             loss to_categorical_spec ["F"%string] pair_algo pair_samples
             = Ok (l, td, ml) /\ length ml = 2%nat)
    by (do 3 eexists; split; reflexivity).
  destruct H as [l [td [ml [H Hlen]]]].
  apply (update_needs_scalar_model_loss unit unit to_categorical_spec nat
           (fun _ _ => pair_samples) (fun _ => 0) pair_algo ["F"%string]
           {| opt_loss := []; gradNorm := []; tdAbsErr := [] |}
           {| effects := @nil (effect nat); update_counter := 0 |}
           l td ml H).
  lia.
Defined.

Lemma update_detached_witness :
  exists l td info st',
    update to_categorical_spec (fun _ _ => example_samples 1) (fun _ => 0)
           ["F"%string] patched_algo
           {| opt_loss := []; gradNorm := []; tdAbsErr := [] |}
           {| effects := @nil (effect nat); update_counter := 0 |}
    = (Ok info, st') /\
    opt_loss info = [l] /\ tdAbsErr info = stride8 td /\
    update_counter st' = 1%nat /\
    effects st'
    = [SampleBatch nat 1; ZeroGrad nat MainOptimizer; Backward nat;
       ClipGradNorm nat; OptimizerStep nat MainOptimizer;
       ZeroGrad nat ModelOptimizer; Backward nat; ClipGradNorm nat;
       OptimizerStep nat ModelOptimizer; UpdateBatchPriorities nat td;
       UpdateTarget nat 1].
Proof.
  assert (H : exists l td m,
             loss to_categorical_spec ["F"%string] patched_algo
                  (example_samples 1) = Ok (l, td, [m]))
    by (do 3 eexists; reflexivity).
  destruct H as [l [td [m H]]].
  pose proof (update_detached unit unit to_categorical_spec nat
                (fun _ _ => example_samples 1) (fun _ => 0) patched_algo
                ["F"%string]
                {| opt_loss := []; gradNorm := []; tdAbsErr := [] |}
                {| effects := @nil (effect nat); update_counter := 0 |}
                l m td H eq_refl ltac:(simpl; lia)) as Hu.
  exists l, td. eexists. eexists. split; [exact Hu|].
  repeat split.
Defined.

(** * The scalar loss, end to end *)

Lemma torch_sum_bounds (v : list R) (M : R) :
  Forall (fun x => 0 <= x <= M) v ->
  0 <= torch_sum v <= INR (length v) * M.
Proof.
  induction 1 as [|x v Hx _ IH].
  - simpl. lra.
  - change (length (x :: v)) with (S (length v)). rewrite S_INR. simpl.
    lra.
Qed.

Lemma torch_mean_bounds (v : list R) (M : R) :
  v <> [] -> Forall (fun x => 0 <= x <= M) v -> 0 <= torch_mean v <= M.
Proof.
  intros Hne Hv. pose proof (torch_sum_bounds v M Hv) as Hs.
  assert (Hlen : 0 < INR (length v)).
  { destruct v; [congruence|]. apply lt_0_INR. simpl. lia. }
  unfold torch_mean. split.
  - apply Rmult_le_reg_r with (INR (length v)); [assumption|].
    unfold Rdiv. rewrite Rmult_assoc, Rinv_l by lra. lra.
  - apply Rmult_le_reg_r with (INR (length v)); [assumption|].
    unfold Rdiv. rewrite Rmult_assoc, Rinv_l by lra. lra.
Qed.

Lemma select_rows_Forall {A : Type} (P : A -> Prop) (indexes : list nat)
  (tensor : list (list A)) (xs : list A) :
  select_rows indexes tensor = Ok xs ->
  Forall (Forall P) tensor -> Forall P xs.
Proof.
  revert tensor xs.
  induction indexes as [|i indexes IH]; intros [|row tensor] xs H Ht;
    simpl in H; try (injection H as <-; constructor).
  unfold getitem in H.
  destruct (nth_error row i) as [x|] eqn:Hx; [|discriminate].
  cbn [bind] in H.
  destruct (select_rows indexes tensor) as [xs'|] eqn:Hs; [|discriminate].
  cbn [bind] in H. injection H as <-. inversion Ht; subst.
  constructor.
  - rewrite Forall_forall in H1. apply H1. now apply nth_error_In in Hx.
  - now apply (IH tensor).
Qed.

Lemma cross_entropy_length (target_p p : list (list R)) :
  length (cross_entropy target_p p) = length (kl_div target_p p).
Proof.
  unfold cross_entropy, kl_div, kl_sum, clamp_probs.
  now rewrite !length_map, !length_combine, length_map.
Qed.

Section ScalarLoss.

Variables Obs Latent : Type.
Variable self : Algo Obs Latent.
Hypothesis Hrange : V_min self < V_max self.
Hypothesis Hatoms : (2 <= n_atoms (agent self))%nat.

Lemma projected_row_distribution (dz : R) (u : list R) (r : R) (d : bool) :
  delta_z self = Ok dz ->
  distribution (n_atoms (agent self)) u ->
  Forall (fun x => 0 <= x) (projected_row self dz u r d) /\
  torch_sum (projected_row self dz u r d) = 1.
Proof.
  intros Hdz [Hlen [Hnn Hsum]]. split.
  - unfold projected_row. apply Forall_forall. intros y Hy.
    apply in_map_iff in Hy. destruct Hy as [zi [<- _]].
    apply (weighted_sum_bounds u
             (map (fun x => kernel dz x zi) (shifted_row self r d)) Hnn).
    apply Forall_forall. intros k Hk. apply in_map_iff in Hk.
    destruct Hk as [x [<- _]]. unfold kernel. apply torch_clamp_bounds. lra.
  - rewrite <- Hsum.
    pose proof (projected_row_mass Obs Latent self dz u
                  (shifted_row self r d) Hrange Hatoms Hdz) as Hm.
    rewrite map_map in Hm. apply Hm.
    + unfold shifted_row. now rewrite !length_map, length_support.
    + unfold shifted_row. intros x Hx. apply in_map_iff in Hx.
      destruct Hx as [y [<- _]]. apply torch_clamp_bounds. lra.
Qed.

(** X16. On a valid support, with a target network that gives a distribution
    for every action, without prioritized replay and with [mid_batch_reset],
    the scalar loss [PizeroCategoricalDQN.loss] returns for a non-empty batch
    lies between 0 and [ln (1 / EPS)]. *)
Theorem base_loss_scalar_bounded (samples : Samples Obs) (l : R)
  (KL : list R) :
  (forall obs act rew,
     Forall (Forall (distribution (n_atoms (agent self))))
            (target (agent self) obs act rew)) ->
  prioritized_replay self = false ->
  mid_batch_reset self = true ->
  base_loss self samples = Ok (l, KL) ->
  KL <> [] ->
  0 <= l <= ln (1 / EPS).
Proof.
  intros Htarget Hpr Hm H Hne.
  rewrite base_loss_steps, base_per_sample_steps, Hpr, Hm in H.
  destruct (base_target_p self samples) as [target_p|] eqn:Ht;
    [|discriminate].
  cbn [bind] in H.
  destruct (base_prediction self samples) as [p|]; [|discriminate].
  cbn [bind] in H. injection H as <- <-.
  assert (Hdist : Forall (fun t => Forall (fun x => 0 <= x) t /\
                                   torch_sum t = 1) target_p).
  { unfold base_target_p in Ht.
    destruct (delta_z self) as [dz|] eqn:Hdz; [|discriminate].
    cbn [bind] in Ht.
    destruct (getitem (done_n samples) 1) as [done_n1|]; [|discriminate].
    cbn [bind] in Ht.
    destruct (getitem (return_ samples) 1) as [return_1|]; [|discriminate].
    cbn [bind] in Ht.
    destruct (getitem (all_observation samples) (n_step_return self + 1))
      as [obs_n|]; [|discriminate].
    cbn [bind] in Ht.
    destruct (getitem (all_action samples) (n_step_return self))
      as [act_n|]; [|discriminate].
    cbn [bind] in Ht.
    destruct (getitem (all_reward samples) (n_step_return self))
      as [rew_n|]; [|discriminate].
    cbn [bind] in Ht. rewrite getattr_double_dqn in Ht. cbn [bind] in Ht.
    match type of Ht with
    | bind ?g _ = _ => destruct g as [next_a|]; [|discriminate]
    end.
    cbn [bind] in Ht. unfold select_at_indexes in Ht.
    destruct (Nat.eqb _ _); [|discriminate].
    destruct (select_rows next_a (target (agent self) obs_n act_n rew_n))
      as [unproj|] eqn:Hsel; [|discriminate].
    cbn [bind] in Ht. injection Ht as <-.
    pose proof (select_rows_Forall _ _ _ _ Hsel (Htarget obs_n act_n rew_n))
      as Hu.
    apply Forall_of_nth_error. intros b row Hb.
    rewrite project_nth_error in Hb.
    destruct (nth_error unproj b) as [u|] eqn:Eu; [|discriminate].
    destruct (nth_error return_1 b) as [r|]; [|discriminate].
    destruct (nth_error done_n1 b) as [d|]; [|discriminate].
    injection Hb as <-.
    apply projected_row_distribution; [assumption|].
    rewrite Forall_forall in Hu. apply Hu. now apply nth_error_In in Eu. }
  apply torch_mean_bounds.
  - intros E. apply Hne. apply length_zero_iff_nil.
    rewrite <- cross_entropy_length, E. reflexivity.
  - apply Forall_forall. intros x Hx. unfold cross_entropy in Hx.
    apply in_map_iff in Hx. destruct Hx as [[t q] [<- Hin]]. simpl.
    pose proof (in_combine_l _ _ _ _ Hin) as Hl.
    pose proof (in_combine_r _ _ _ _ Hin) as Hr.
    unfold clamp_probs in Hr. apply in_map_iff in Hr.
    destruct Hr as [q0 [<- _]].
    rewrite Forall_forall in Hdist. destruct (Hdist t Hl) as [Hnn Hsum].
    pose proof (cross_entropy_row_bounds t q0 Hnn) as Hb.
    unfold clamp_row in Hb. rewrite Hsum in Hb.
    unfold Rdiv. rewrite Rmult_1_l, ln_Rinv by apply EPS_pos. lra.
Qed.

End ScalarLoss.

Lemma base_loss_scalar_bounded_witness :
  exists l KL,
    base_loss undiscounted_algo (example_samples 1) = Ok (l, KL) /\
    0 <= l <= ln (1 / EPS).
Proof.
  assert (H : exists l KL,
             base_loss undiscounted_algo (example_samples 1) = Ok (l, KL) /\
             length KL = 1%nat)
    by (do 2 eexists; split; reflexivity).
  destruct H as [l [KL [H Hlen]]].
  exists l, KL. split; [exact H|].
  apply (base_loss_scalar_bounded unit unit undiscounted_algo
           undiscounted_range undiscounted_atoms (example_samples 1) l KL).
  - intros obs act rew. simpl.
    constructor; [|constructor]. constructor; [|constructor].
    unfold distribution. split; [reflexivity|]. split.
    + unfold one_hot. simpl. repeat constructor; lra.
    + simpl. lra.
  - reflexivity.
  - reflexivity.
  - exact H.
  - intros E. rewrite E in Hlen. discriminate.
Defined.

(** * The model loss against the base loss *)

Section ModelAgainstBase.

Variables Obs Latent : Type.
Variable to_categorical : list R -> nat -> list (list R).
Variable self : Algo Obs Latent.

(** X17. When the Q-head applied to the stem's latent gives what the live
    network gives on the observation, the RL loss and the KL vector that
    [PizeroModelCategoricalDQN.loss] returns are the ones
    [PizeroCategoricalDQN.loss] returns on the same batch: the jumps and the
    reward model only add the third component. *)
Theorem model_loss_extends_base_loss (patched : list string)
  (samples : Samples Obs) (rl : R) (KL model_loss : list R) :
  (forall obs act rew,
     head_forward (agent self) (stem_forward (agent self) obs act rew)
                  act rew
     = forward (agent self) obs act rew) ->
  loss to_categorical patched self samples = Ok (rl, KL, model_loss) ->
  base_loss self samples = Ok (rl, KL).
Proof.
  intros Hhead H. rewrite loss_steps in H.
  destruct (loss_step0 self samples) as [[[[latent rew0] rl0] KL0]|] eqn:E;
    [|discriminate].
  cbn [bind] in H.
  assert (Hout : rl0 = rl /\ KL0 = KL).
  { unfold loss_model in H.
    destruct (lookup_global patched "to_categorical"); [|discriminate].
    cbn [bind] in H.
    destruct (lookup_global patched "F"); [|discriminate].
    cbn [bind] in H.
    match type of H with
    | bind ?m _ = _ => destruct m as [[l ml]|]; [|discriminate]
    end.
    cbn [bind] in H. rewrite getattr_prioritized_replay in H.
    cbn [bind] in H. injection H as -> -> _. now split. }
  destruct Hout as [-> ->]. clear H.
  unfold loss_step0, getitem in E.
  destruct (nth_error (all_observation samples) 1) as [obs_1|] eqn:Ho1;
    [|discriminate]. cbn [bind] in E.
  destruct (nth_error (all_action samples) 0) as [act_0|] eqn:Ha0;
    [|discriminate]. cbn [bind] in E.
  destruct (nth_error (all_reward samples) 0) as [rew_0|] eqn:Hr0;
    [|discriminate]. cbn [bind] in E.
  destruct (nth_error (all_action samples) 1) as [act_1|] eqn:Ha1;
    [|discriminate]. cbn [bind] in E.
  destruct (nth_error (return_ samples) 1) as [return_1|] eqn:Hret;
    [|discriminate]. cbn [bind] in E.
  destruct (nth_error (done_n samples) 1) as [done_n1|] eqn:Hdn;
    [|discriminate]. cbn [bind] in E.
  destruct (nth_error (all_observation samples) (n_step_return self + 1))
    as [obs_n|] eqn:Hobs; [|discriminate]. cbn [bind] in E.
  destruct (nth_error (all_action samples) (n_step_return self))
    as [act_n|] eqn:Hact; [|discriminate]. cbn [bind] in E.
  destruct (nth_error (all_reward samples) (n_step_return self))
    as [rew_n|] eqn:Hrew; [|discriminate]. cbn [bind] in E.
  rewrite getattr_prioritized_replay in E. cbn [bind] in E.
  destruct (nth_error (done samples) 1) as [done_1|] eqn:Hd1;
    [|discriminate]. cbn [bind] in E.
  match type of E with
  | bind ?m _ = _ => destruct m as [[rl1 KL1]|] eqn:Hrl; [|discriminate]
  end.
  cbn [bind] in E. rewrite getattr_detach_model in E. cbn [bind] in E.
  injection E as _ _ -> ->.
  rewrite rl_loss_steps, rl_per_sample_steps in Hrl.
  rewrite base_loss_steps, base_per_sample_steps.
  assert (Ht : base_target_p self samples
               = rl_target_p self return_1 done_n1 obs_n act_n rew_n).
  { unfold rl_target_p, base_target_p, getitem.
    destruct (delta_z self); [|reflexivity]. cbn [bind].
    now rewrite Hdn, Hret, Hobs, Hact, Hrew. }
  assert (Hp : base_prediction self samples
               = select_at_indexes act_1
                   (head_forward (agent self)
                      (stem_forward (agent self) obs_1 act_0 rew_0)
                      act_0 rew_0)).
  { unfold base_prediction, getitem. rewrite Ho1, Ha0, Hr0, Ha1.
    cbn [bind]. now rewrite Hhead. }
  rewrite Ht, Hp.
  destruct (rl_target_p self return_1 done_n1 obs_n act_n rew_n)
    as [target_p|]; [|discriminate].
  cbn [bind] in *.
  destruct (select_at_indexes act_1 _) as [p|]; [|discriminate].
  cbn [bind] in *.
  destruct (mid_batch_reset self).
  - destruct (prioritized_replay self); exact Hrl.
  - unfold rl_valid, done_getitem, getitem in Hrl.
    destruct (nth_error done_1 1); discriminate.
Qed.

End ModelAgainstBase.

Lemma model_loss_extends_base_loss_witness :
  exists rl KL model_loss,
    loss to_categorical_spec ["F"%string] patched_algo (example_samples 1)
    = Ok (rl, KL, model_loss) /\
    base_loss patched_algo (example_samples 1) = Ok (rl, KL).
Proof.
  assert (H : exists rl KL model_loss,
             loss to_categorical_spec ["F"%string] patched_algo
                  (example_samples 1) = Ok (rl, KL, model_loss))
    by (do 3 eexists; reflexivity).
  destruct H as [rl [KL [ml H]]].
  exists rl, KL, ml. split; [exact H|].
  apply (model_loss_extends_base_loss unit unit to_categorical_spec
           patched_algo ["F"%string] (example_samples 1) rl KL ml);
    [reflexivity|exact H].
Defined.
